(** * libcelt7.js: the JavaScript wrappers around the emscripten build of CELT 0.7.1

    A shallow embedding of [lib/utils.js], [lib/decoder.js] and
    [lib/encoder.js].  The wrappers are effectful JavaScript: they allocate in
    the heap of an emscripten module, call its exports, and throw.  They are
    embedded in a state-and-exception monad over a [World] that holds the
    module instances, the global scope and the list of calls made to the
    module's exports. *)

From Stdlib Require Import ZArith.
From stdpp Require Import base numbers list strings gmap.

Local Open Scope Z_scope.

(** ** JavaScript values the wrappers handle *)

(** The exceptions the wrappers (and the typed-array operations they use)
    throw, by constructor, each with its [message]. *)
Inductive exn : Type :=
  | Error (message : string)
  | TypeError (message : string)
  | RangeError (message : string)
  | ReferenceError (message : string).

Definition message_of (e : exn) : string :=
  match e with
  | Error m | TypeError m | RangeError m | ReferenceError m => m
  end.

(** How a statement list ends: normally with a value, or by a [throw]. *)
Inductive completion (A : Type) : Type :=
  | Normal (a : A)
  | Throw (e : exn).
Arguments Normal {A} a.
Arguments Throw {A} e.

Definition is_Normal {A} (c : completion A) : bool :=
  match c with Normal _ => true | Throw _ => false end.

(** [msg] matches the regular expression [/needle/] of a plain word. *)
Definition references (needle msg : string) : bool :=
  match String.index 0 needle msg with
  | Some _ => true
  | None => false
  end.

(** The two element types of the typed arrays the wrappers accept and
    return.  A Float32 element is kept as its 32 bit pattern: the wrappers
    only copy samples, they never compute with them. *)
Inductive ElemKind : Type := Int16 | Float32.

Definition BYTES_PER_ELEMENT (k : ElemKind) : Z :=
  match k with Int16 => 2 | Float32 => 4 end.

Record TypedArray : Type := mkTypedArray {
  kind : ElemKind;
  elems : list Z
}.

(** A node.js [Buffer]: a byte view at [byteOffset] of some ArrayBuffer. *)
Record Buffer : Type := mkBuffer {
  byteOffset : Z;
  bytes : list Z
}.

Definition len {A} (l : list A) : Z := Z.of_nat (length l).

(** [x >> n] on JavaScript numbers: the left operand is wrapped to a signed
    32 bit integer first. *)
Definition ToInt32 (x : Z) : Z :=
  let m := x mod 4294967296 in
  if 2147483648 <=? m then m - 4294967296 else m.

Definition js_shr (x n : Z) : Z := Z.shiftr (ToInt32 x) n.

(** Little-endian bytes of an element and back. *)
Definition le_bytes (width : nat) (v : Z) : list Z :=
  (λ i : nat, Z.land (Z.shiftr v (8 * Z.of_nat i)) 255) <$> seq 0 width.

Definition le_word (bs : list Z) : Z :=
  foldr (λ b acc, b + 256 * acc) 0 bs.

Definition elem_of_bytes (k : ElemKind) (bs : list Z) : Z :=
  match k with
  | Int16 => let u := le_word bs in if 32768 <=? u then u - 65536 else u
  | Float32 => le_word bs
  end.

Fixpoint elems_of_bytes (k : ElemKind) (count : nat) (bs : list Z) : list Z :=
  match count with
  | O => []
  | S c =>
      let w := Z.to_nat (BYTES_PER_ELEMENT k) in
      elem_of_bytes k (take w bs) :: elems_of_bytes k c (drop w bs)
  end.

(** [array.buffer] restricted to the array's view. *)
Definition bytes_of_elems (k : ElemKind) (es : list Z) : list Z :=
  mjoin (le_bytes (Z.to_nat (BYTES_PER_ELEMENT k)) <$> es).

(** [new Int16Array(buffer)] / [new Float32Array(buffer)] over a whole
    ArrayBuffer. *)
Definition ctor_name (k : ElemKind) : string :=
  match k with Int16 => "Int16Array" | Float32 => "Float32Array" end.

Definition width_digit (k : ElemKind) : string :=
  match k with Int16 => "2" | Float32 => "4" end.

Definition new_TypedArray (k : ElemKind) (buffer : list Z) : completion TypedArray :=
  if negb (Z.rem (len buffer) (BYTES_PER_ELEMENT k) =? 0)
  then Throw (RangeError ("byte length of " +:+ ctor_name k +:+
                          " should be a multiple of " +:+ width_digit k))
  else Normal (mkTypedArray k
         (elems_of_bytes k (Z.to_nat (len buffer / BYTES_PER_ELEMENT k)) buffer)).

(** [new Int16Array(buffer, byteOffset, length)] on the memory of a Buffer
    [chunk]; [length] may be fractional in the source
    ([byteLength / BYTES_PER_ELEMENT]) and is truncated by the constructor. *)
Definition new_TypedArray_view (k : ElemKind) (chunk : Buffer) : completion TypedArray :=
  if negb (Z.rem (byteOffset chunk) (BYTES_PER_ELEMENT k) =? 0)
  then Throw (RangeError ("start offset of " +:+ ctor_name k +:+
                          " should be a multiple of " +:+ width_digit k))
  else Normal (mkTypedArray k
         (elems_of_bytes k (Z.to_nat (len (bytes chunk) / BYTES_PER_ELEMENT k)) (bytes chunk))).

(** [%TypedArray%.prototype.slice(begin, end)] and [subarray(begin, end)]
    on a Uint8Array: negative indices count from the end and both are
    clamped to the array. *)
Definition rel_index (n i : Z) : Z :=
  if i <? 0 then Z.max (n + i) 0 else Z.min i n.

Definition js_slice (l : list Z) (b e : Z) : list Z :=
  let from := rel_index (len l) b in
  let to := rel_index (len l) e in
  take (Z.to_nat (Z.max (to - from) 0)) (drop (Z.to_nat from) l).

(** [%TypedArray%.prototype.set(source, offset)] on the view of element
    width [bpe] over the byte memory [heap]; [src] is the source as bytes,
    [count] its length in elements. *)
Definition write_at (off : nat) (bs heap : list Z) : list Z :=
  take off heap ++ bs ++ drop (off + length bs) heap.

Definition typed_set (bpe : Z) (heap src : list Z) (count offset : Z) : completion (list Z) :=
  if (offset <? 0) || (len heap / bpe <? offset + count)
  then Throw (RangeError "offset is out of bounds")
  else Normal (write_at (Z.to_nat (bpe * offset)) src heap).

(** [HEAPU32[i]]: [undefined] ([None]) off the array. *)
Definition HEAPU32_get (heap : list Z) (i : Z) : option Z :=
  if (i <? 0) || (len heap / 4 <=? i) then None
  else Some (le_word (take 4 (drop (Z.to_nat (4 * i)) heap))).

(** ** The emscripten module [build/libcelt7.js]

    The module is generated by emscripten from the C sources of CELT 0.7.1
    and is not part of the wrappers: its exports are taken as they come.  One
    instance of the module is its byte memory [HEAPU8] (of which [HEAP16],
    [HEAPF32] and [HEAPU32] are views) and whatever else the compiled code
    keeps ([native]: allocator, statics).  An export takes its arguments and
    the instance to its result and the instance it leaves; an export that
    aborts the module is not modelled. *)
Record Lib (E : Type) : Type := mkLib {
  HEAPU8 : list Z;
  native : E
}.
Arguments mkLib {E} _ _.
Arguments HEAPU8 {E} _.
Arguments native {E} _.

Record Engine (E : Type) : Type := mkEngine {
  lib_fresh : Lib E;
  _malloc : Z → Lib E → Z * Lib E;
  _free : Z → Lib E → Lib E;
  _celt_mode_create : Z → Z → Z → Lib E → Z * Lib E;
  _celt_mode_destroy : Z → Lib E → Lib E;
  _celt_encoder_create : Z → Z → Z → Lib E → Z * Lib E;
  _celt_encoder_destroy : Z → Lib E → Lib E;
  _celt_decoder_create : Z → Z → Z → Lib E → Z * Lib E;
  _celt_decoder_destroy : Z → Lib E → Lib E;
  _celt_encode : bool → Z → Z → Z → Z → Z → Lib E → Z * Lib E;
  _celt_decode : bool → Z → Z → Z → Z → Lib E → Z * Lib E;
  _celt_strerror : option Z → Lib E → Z * Lib E;
  Pointer_stringify : Z → Lib E → string
}.
Arguments lib_fresh {E} _.
Arguments _malloc {E} _ _ _.
Arguments _free {E} _ _ _.
Arguments _celt_mode_create {E} _ _ _ _ _.
Arguments _celt_mode_destroy {E} _ _ _.
Arguments _celt_encoder_create {E} _ _ _ _ _.
Arguments _celt_encoder_destroy {E} _ _ _.
Arguments _celt_decoder_create {E} _ _ _ _ _.
Arguments _celt_decoder_destroy {E} _ _ _.
Arguments _celt_encode {E} _ _ _ _ _ _ _ _.
Arguments _celt_decode {E} _ _ _ _ _ _ _.
Arguments _celt_strerror {E} _ _ _.
Arguments Pointer_stringify {E} _ _ _.

(** [_celt_encode eng true] is the export [_celt_encode_float],
    [_celt_encode eng false] the export [_celt_encode]; likewise for
    [_celt_decode]. *)

(** A call to an export of the module instance [inst], with its arguments
    and, where it has one, its result. *)
Inductive Call : Type :=
  | CMalloc (inst : nat) (size ret : Z)
  | CFree (inst : nat) (p : Z)
  | CModeCreate (inst : nat) (rate frameSize p_err ret : Z)
  | CModeDestroy (inst : nat) (mode : Z)
  | CEncoderCreate (inst : nat) (mode channels p_err ret : Z)
  | CEncoderDestroy (inst : nat) (enc_p : Z)
  | CDecoderCreate (inst : nat) (mode channels p_err ret : Z)
  | CDecoderDestroy (inst : nat) (dec_p : Z)
  | CEncode (inst : nat) (float : bool) (enc_p p_pcm zero p_data size ret : Z)
  | CDecode (inst : nat) (float : bool) (dec_p p_data data_len p_pcm ret : Z)
  | CStrerror (inst : nat) (errorId : option Z) (ret : Z).

(** The state the wrappers run in.  [instances] maps an instance to its
    state, an instance never touched being fresh; instance [0] is the shared
    [libceltjs.instance], and [created] counts the instances the factory
    [libceltjs()] has made.  [globals] are the numeric variables of the
    global scope.  [calls] lists the calls made to the module's exports,
    oldest first. *)
Record World (E : Type) : Type := mkWorld {
  instances : gmap nat (Lib E);
  created : nat;
  globals : gmap string Z;
  calls : list Call
}.
Arguments mkWorld {E} _ _ _ _.
Arguments instances {E} _.
Arguments created {E} _.
Arguments globals {E} _.
Arguments calls {E} _.

(** ** The monad: state and exceptions *)

Definition M (S A : Type) : Type := S → completion A * S.

Definition ret {S A} (a : A) : M S A := λ s, (Normal a, s).

Definition throw {S A} (e : exn) : M S A := λ s, (Throw e, s).

Definition bind {S A B} (m : M S A) (k : A → M S B) : M S B :=
  λ s, match m s with
       | (Normal a, s') => k a s'
       | (Throw e, s') => (Throw e, s')
       end.

Notation "'let!' x ':=' m 'in' k" := (bind m (λ x, k))
  (at level 10, x name, m at level 100, k at level 200).
Notation "'run!' m 'in' k" := (bind m (λ _, k))
  (at level 10, m at level 100, k at level 200).

(** [try { body } finally { fin }]: [fin] runs however [body] ends; the
    completion of [body] stands unless [fin] itself throws. *)
Definition try_finally {S A} (body : M S A) (fin : M S unit) : M S A :=
  λ s, let '(r, s1) := body s in
       match fin s1 with
       | (Normal _, s2) => (r, s2)
       | (Throw e, s2) => (Throw e, s2)
       end.

(** [try { body } catch (err) { handler }]. *)
Definition try_catch {S A} (body : M S A) (handler : exn → M S A) : M S A :=
  λ s, match body s with
       | (Normal a, s1) => (Normal a, s1)
       | (Throw e, s1) => handler e s1
       end.

(** A completion computed without touching the state. *)
Definition lift_completion {S A} (c : completion A) : M S A := λ s, (c, s).

(** The [var]s of a function body that are assigned inside a [try] and read in
    its [finally]: the body runs over the pair of its locals and the world. *)
Definition with_locals {L W A} (init : L) (body : M (L * W) A) : M W A :=
  λ w, let '(r, (_, w')) := body (init, w) in (r, w').

Definition outer {L W A} (m : M W A) : M (L * W) A :=
  λ '(l, w), let '(r, w') := m w in (r, (l, w')).

Definition get_local {L W} : M (L * W) L := λ '(l, w), (Normal l, (l, w)).

Definition set_local {L W} (l : L) : M (L * W) unit := λ '(_, w), (Normal tt, (l, w)).

(** ** Reaching the module from JavaScript *)

Section Module_access.
Context {E : Type} (eng : Engine E).

(** [require('../build/libcelt7.js').instance], the shared instance. *)
Definition instance : nat := 0%nat.

Definition lib_at (w : World E) (inst : nat) : Lib E :=
  default (lib_fresh eng) (instances w !! inst).

(** [libceltjs()]: the factory makes an instance of its own. *)
Definition libceltjs : M (World E) nat :=
  λ w, (Normal (S (created w)),
        mkWorld (instances w) (S (created w)) (globals w) (calls w)).

(** A call [this._lib._f(args)] of an export that returns a number. *)
Definition export (inst : nat) (f : Lib E → Z * Lib E) (ev : Z → Call) : M (World E) Z :=
  λ w, let '(a, l') := f (lib_at w inst) in
       (Normal a,
        mkWorld (<[inst := l']> (instances w)) (created w) (globals w)
                (calls w ++ [ev a])).

(** The same for an export that returns nothing. *)
Definition export_void (inst : nat) (f : Lib E → Lib E) (ev : Call) : M (World E) unit :=
  λ w, (Normal tt,
        mkWorld (<[inst := f (lib_at w inst)]> (instances w)) (created w) (globals w)
                (calls w ++ [ev])).

(** [lib.HEAP16.set(src, offset)] and its siblings, on the instance's
    memory. *)
Definition heap_set (inst : nat) (bpe : Z) (src : list Z) (count offset : Z)
  : M (World E) unit :=
  λ w, let l := lib_at w inst in
       match typed_set bpe (HEAPU8 l) src count offset with
       | Normal h =>
           (Normal tt,
            mkWorld (<[inst := mkLib h (native l)]> (instances w)) (created w)
                    (globals w) (calls w))
       | Throw e => (Throw e, w)
       end.

(** Reading from the instance without changing it. *)
Definition lib_read {A} (inst : nat) (f : Lib E → A) : M (World E) A :=
  λ w, (Normal (f (lib_at w inst)), w).

Definition heap_read {A} (inst : nat) (f : list Z → A) : M (World E) A :=
  lib_read inst (λ l, f (HEAPU8 l)).

(** Reading an identifier that no enclosing function or module scope
    declares: it is looked up in the global scope. *)
Definition global_var (name : string) : M (World E) Z :=
  λ w, match globals w !! name with
       | Some v => (Normal v, w)
       | None => (Throw (ReferenceError (name +:+ " is not defined")), w)
       end.

Definition malloc (inst : nat) (size : Z) : M (World E) Z :=
  export inst (_malloc eng size) (CMalloc inst size).

Definition free (inst : nat) (p : Z) : M (World E) unit :=
  export_void inst (_free eng p) (CFree inst p).
End Module_access.

(** ** lib/utils.js *)

Module utils_js.
Section utils.
Context {E : Type} (eng : Engine E).

Definition stringifyError (errorId : option Z) : M (World E) string :=
  let! p := export eng instance (_celt_strerror eng errorId) (CStrerror instance errorId) in
  lib_read eng instance (Pointer_stringify eng p).
End utils.
End utils_js.

(** ** Options and arguments shared by lib/decoder.js and lib/encoder.js *)

(** The [opts] object of the constructors; [None] is a property that is
    absent (or [undefined]). *)
Record Opts : Type := mkOpts {
  rate : option Z;
  frameSize : option Z;
  channels : option Z;
  application : option Z;
  unsafe : option bool
}.

(** [opts] after [extend({rate: .., frameSize: .., channels: .., unsafe: ..}, opts)]:
    the four properties the first argument has are always defined. *)
Record Extended : Type := mkExtended {
  x_rate : Z;
  x_frameSize : Z;
  x_channels : Z;
  x_application : option Z;
  x_unsafe : bool
}.

(** [extend(target, source)] of the npm package [extend]: every defined
    property of [source] overrides the one of [target]. *)
Definition extend (target : Extended) (source : Opts) : Extended :=
  {| x_rate := default (x_rate target) (rate source);
     x_frameSize := default (x_frameSize target) (frameSize source);
     x_channels := default (x_channels target) (channels source);
     x_application :=
       match application source with Some a => Some a | None => x_application target end;
     x_unsafe := default (x_unsafe target) (unsafe source) |}.

Definition defaults : Extended :=
  {| x_rate := 48000; x_frameSize := 256; x_channels := 1;
     x_application := None; x_unsafe := false |}.

(** What a caller may pass as [data] to the decode methods. *)
Inductive DecodeArg : Type :=
  | DNull
  | DBuffer (data : Buffer)
  | DNumber (n : Z)
  | DString (s : string)
  | DUndefined.

(** A value with properties passed as [pcm] to [encode]: an Int16Array or a
    Float32Array, or any other value but [undefined] and [null], of which
    only the [length] property is read ([None] when it has none, or one
    that is not a number). *)
Inductive PcmArg : Type :=
  | PTyped (pcm : TypedArray)
  | POther (length : option Z).

(** Any value passed as [pcm]: [undefined] (also when the argument is left
    out) and [null] have no properties. *)
Inductive PcmValue : Type :=
  | PUndefined
  | PNull
  | PObject (pcm : PcmArg).

(** How [_transform] calls its [callback]: [callback(err)] or
    [callback(null, result)]. *)
Inductive Callback : Type :=
  | callback_err (err : exn)
  | callback_result (result : Buffer).

Definition e (msg : string) : exn := Error msg.

(** ** lib/decoder.js *)

Module decoder_js.

(** The properties of a [Decoder] object. *)
Record DecoderT : Type := mkDecoder {
  _rate : Z;
  _frameSize : Z;
  _channels : Z;
  _unsafe : bool;
  _lib : nat;
  _mode : Z;
  _dec_p : Z
}.

Section decoder.
Context {E : Type} (eng : Engine E).
#[local] Abbreviation W := (World E).

(** [Decoder.prototype._error] *)
Definition _error (lib : nat) (p_err : Z) : M W exn :=
  let! err := heap_read eng lib (λ h, HEAPU32_get h (js_shr p_err 2)) in
  let! msg := utils_js.stringifyError eng err in
  ret (Error msg).

(** [function Decoder(opts)]; called without [new] it calls itself with
    [new], so both ways run this construction. *)
Definition Decoder (opts : Opts) : M W DecoderT :=
  let opts := extend defaults opts in
  if x_channels opts <? 1 then throw (e "channels must be greater than 0") else
  if (x_rate opts <? 32000) || (x_rate opts >? 96000)
  then throw (e "rate must be in range 32000 - 96000") else
  if negb (Z.rem (x_rate opts) 2 =? 0) then throw (e "rate must be even") else
  let rate := x_rate opts in
  let frameSize := x_frameSize opts in
  let channels := x_channels opts in
  let unsafe := x_unsafe opts in
  let! lib := (if unsafe then ret instance else libceltjs) in
  let! p_err := malloc eng lib 4 in
  try_finally
    (let! mode := export eng lib (_celt_mode_create eng rate frameSize p_err)
                    (CModeCreate lib rate frameSize p_err) in
     if mode =? 0 then (let! err := _error lib p_err in throw err) else
     let! dec_p := export eng lib (_celt_decoder_create eng mode channels p_err)
                     (CDecoderCreate lib mode channels p_err) in
     if dec_p =? 0 then
       (run! export_void eng lib (_celt_mode_destroy eng mode) (CModeDestroy lib mode) in
        let! err := _error lib p_err in throw err)
     else ret (mkDecoder rate frameSize channels unsafe lib mode dec_p))
    (free eng lib p_err).

(** [Decoder.prototype.destroy] *)
Definition destroy (this : DecoderT) : M W unit :=
  if _unsafe this then
    (run! export_void eng (_lib this) (_celt_decoder_destroy eng (_dec_p this))
            (CDecoderDestroy (_lib this) (_dec_p this)) in
     export_void eng (_lib this) (_celt_mode_destroy eng (_mode this))
       (CModeDestroy (_lib this) (_mode this)))
  else ret tt.

(** [this._lib._celt_decode] and [this._lib._celt_decode_float], as passed
    for [doDecode]. *)
Definition celt_decode (lib : nat) (float : bool) (dec_p p_data data_len p_pcm : Z) : M W Z :=
  export eng lib (_celt_decode eng float dec_p p_data data_len p_pcm)
    (CDecode lib float dec_p p_data data_len p_pcm).

(** [Decoder.prototype._decode]; the local [p_data] is [undefined]
    ([None]) until it is assigned.  The result is the ArrayBuffer of the
    decoded bytes. *)
Definition _decode (this : DecoderT) (data : DecodeArg) (bps : Z)
    (doDecode : Z → Z → Z → Z → M W Z) : M W (list Z) :=
  let lib := _lib this in
  let pcmSize := _frameSize this * bps * _channels this in
  let! p_pcm := malloc eng lib pcmSize in
  with_locals (None : option Z)
    (try_finally
       (let! pd :=
          match data with
          | DNull =>
              let data_len := 0 in
              run! set_local (Some 0) in
              ret (0, data_len)
          | DBuffer buf =>
              let data_len := len (bytes buf) in
              let! p_data := outer (malloc eng lib data_len) in
              run! set_local (Some p_data) in
              run! outer (heap_set eng lib 1 (bytes buf) data_len p_data) in
              ret (p_data, data_len)
          | _ => throw (TypeError "data must be Buffer or null")
          end in
        let! r := outer (doDecode (_dec_p this) pd.1 pd.2 p_pcm) in
        if r <? 0 then
          (let! msg := outer (utils_js.stringifyError eng (Some r)) in throw (e msg))
        else
          outer (heap_read eng lib (λ h, js_slice h p_pcm (p_pcm + pcmSize))))
       (let! p_data := get_local in
        run! (match p_data with
              | Some p => if p =? 0 then ret tt else outer (free eng lib p)
              | None => ret tt
              end) in
        outer (free eng lib p_pcm))).

(** [Decoder.prototype.decodeInt16] *)
Definition decodeInt16 (this : DecoderT) (data : DecodeArg) : M W TypedArray :=
  let! buffer := _decode this data 2 (celt_decode (_lib this) false) in
  lift_completion (new_TypedArray Int16 buffer).

(** [Decoder.prototype.decodeFloat32] *)
Definition decodeFloat32 (this : DecoderT) (data : DecodeArg) : M W TypedArray :=
  let! buffer := _decode this data 4 (celt_decode (_lib this) true) in
  lift_completion (new_TypedArray Float32 buffer).

(** The properties of a [DecoderStream]: [_decode] is one of the two
    decode methods, bound to the decoder. *)
Record DecoderStreamT : Type := mkDecoderStream {
  stream_decode : DecodeArg → M W TypedArray
}.

(** [function DecoderStream(decoder, mode)]; [mode] is [None] when the
    caller passes none. *)
Definition DecoderStream (decoder : DecoderT) (mode : option string)
  : completion DecoderStreamT :=
  if decide (mode = Some "Float32") then Normal (mkDecoderStream (decodeFloat32 decoder))
  else if decide (mode = Some "Int16") then Normal (mkDecoderStream (decodeInt16 decoder))
  else Throw (TypeError ("mode cannot be " +:+ default "undefined" mode)).

(** [Decoder.prototype.stream] *)
Definition stream (this : DecoderT) (mode : option string) : completion DecoderStreamT :=
  DecoderStream this mode.

(** [DecoderStream.prototype._transform]: the stream hands every chunk
    written to it over as a Buffer. *)
Definition _transform (this : DecoderStreamT) (chunk : Buffer) : M W Callback :=
  let! result :=
    try_catch
      (let! array := stream_decode this (DBuffer chunk) in
       ret (inr (mkBuffer 0 (bytes_of_elems (kind array) (elems array)))))
      (λ err, ret (inl (callback_err err))) in
  match result with
  | inl returned => ret returned
  | inr result => ret (callback_result result)
  end.
End decoder.
End decoder_js.

(** ** lib/encoder.js *)

Module encoder_js.

(** The properties of an [Encoder] object. *)
Record EncoderT : Type := mkEncoder {
  _rate : Z;
  _frameSize : Z;
  _channels : Z;
  _application : option Z;
  _unsafe : bool;
  _lib : nat;
  _mode : Z;
  _enc_p : Z
}.

(** The properties of an [EncoderStream]. *)
Record EncoderStreamT : Type := mkEncoderStream {
  stream_encoder : EncoderT;
  stream_mode : ElemKind;
  stream_packetSize : option Z
}.

Definition pcm_length (pcm : PcmArg) : option Z :=
  match pcm with
  | PTyped a => Some (len (elems a))
  | POther l => l
  end.

Section encoder.
Context {E : Type} (eng : Engine E).
#[local] Abbreviation W := (World E).

(** [Encoder.prototype._error] *)
Definition _error (lib : nat) (p_err : Z) : M W exn :=
  let! err := heap_read eng lib (λ h, HEAPU32_get h (js_shr p_err 2)) in
  let! msg := utils_js.stringifyError eng err in
  ret (Error msg).

(** [function Encoder(opts)]; called without [new] it calls itself with
    [new], so both ways run this construction. *)
Definition Encoder (opts : Opts) : M W EncoderT :=
  let opts := extend defaults opts in
  if x_channels opts <? 1 then throw (e "channels must be greater than 0") else
  if (x_rate opts <? 32000) || (x_rate opts >? 96000)
  then throw (e "rate must be in range 32000 - 96000") else
  if negb (Z.rem (x_rate opts) 2 =? 0) then throw (e "rate must be even") else
  let rate := x_rate opts in
  let frameSize := x_frameSize opts in
  let channels := x_channels opts in
  let application := x_application opts in
  let unsafe := x_unsafe opts in
  let! lib := (if unsafe then ret instance else libceltjs) in
  let! p_err := malloc eng lib 4 in
  try_finally
    (let! mode := export eng lib (_celt_mode_create eng rate frameSize p_err)
                    (CModeCreate lib rate frameSize p_err) in
     if mode =? 0 then (let! err := _error lib p_err in throw err) else
     let! enc_p := export eng lib (_celt_encoder_create eng mode channels p_err)
                     (CEncoderCreate lib mode channels p_err) in
     if enc_p =? 0 then
       (run! export_void eng lib (_celt_mode_destroy eng mode) (CModeDestroy lib mode) in
        let! err := _error lib p_err in throw err)
     else ret (mkEncoder rate frameSize channels application unsafe lib mode enc_p))
    (free eng lib p_err).

(** [Encoder.prototype.destroy] *)
Definition destroy (this : EncoderT) : M W unit :=
  if _unsafe this then
    (run! export_void eng (_lib this) (_celt_encoder_destroy eng (_enc_p this))
            (CEncoderDestroy (_lib this) (_enc_p this)) in
     export_void eng (_lib this) (_celt_mode_destroy eng (_mode this))
       (CModeDestroy (_lib this) (_mode this)))
  else ret tt.

(** [this._lib._celt_encode_float.bind(this._lib)] ([float = true]) and
    [this._lib._celt_encode.bind(this._lib)]. *)
Definition celt_encode (lib : nat) (float : bool) (enc_p p_pcm zero p_data size : Z) : M W Z :=
  export eng lib (_celt_encode eng float enc_p p_pcm zero p_data size)
    (CEncode lib float enc_p p_pcm zero p_data size).

(** [Encoder.prototype.encode = function(pcm) { .. }].  The function
    declares the one parameter [pcm]: a second argument of a call
    ([arg1]) is bound to no name, and the identifier [compressedSize] of
    the body is resolved in the enclosing scopes, none of which declares
    it, and so in the global scope.  The local [p_pcm] is [undefined]
    ([None]) until it is assigned.  [pcm] is a value with properties; the
    first thing the body does is to read [pcm.length], and what this does
    to [undefined] and [null] is in [encode_value] below.  The Buffer
    returned is a copy of the packet; where node places the copy in its
    pool is not modelled, and its [byteOffset] is given as 0. *)
Definition encode (this : EncoderT) (pcm : PcmArg) (arg1 : option Z) : M W Buffer :=
  let lib := _lib this in
  if negb (bool_decide (pcm_length pcm = Some (_frameSize this * _channels this)))
  then throw (e "frames must be exactly of size frameSize * channels") else
  with_locals (None : option Z)
    (try_finally
       (let! encode :=
          match pcm with
          | PTyped (mkTypedArray Float32 samples) =>
              let! p_pcm := outer (malloc eng lib (len samples * 4)) in
              run! set_local (Some p_pcm) in
              run! outer (heap_set eng lib 4 (bytes_of_elems Float32 samples)
                            (len samples) (js_shr p_pcm 2)) in
              ret (p_pcm, celt_encode lib true)
          | PTyped (mkTypedArray Int16 samples) =>
              let! p_pcm := outer (malloc eng lib (len samples * 2)) in
              run! set_local (Some p_pcm) in
              run! outer (heap_set eng lib 2 (bytes_of_elems Int16 samples)
                            (len samples) (js_shr p_pcm 1)) in
              ret (p_pcm, celt_encode lib false)
          | POther _ => throw (TypeError "pcm must be Int16Array or Float32Array")
          end in
        let p_pcm := encode.1 in
        let encode := encode.2 in
        let! compressedSize := outer (global_var "compressedSize") in
        let! p_data := outer (malloc eng lib compressedSize) in
        try_finally
          (let! compressedSize := outer (global_var "compressedSize") in
           let! n := outer (encode (_enc_p this) p_pcm 0 p_data compressedSize) in
           if n <? 0 then
             (let! msg := outer (utils_js.stringifyError eng (Some n)) in throw (e msg))
           else
             let! packet := outer (heap_read eng lib (λ h, js_slice h p_data (p_data + n))) in
             ret (mkBuffer 0 packet))
          (outer (free eng lib p_data)))
       (let! p_pcm := get_local in
        match p_pcm with
        | Some p => if p =? 0 then ret tt else outer (free eng lib p)
        | None => ret tt
        end)).

(** A call [encoder.encode(pcm, arg1)] with any value for [pcm]: the read
    of [pcm.length] that opens the body throws the engine's TypeError (the
    message is V8's) when [pcm] is [undefined] or [null], and the body goes
    on as in [encode] for every other value. *)
Definition encode_value (this : EncoderT) (pcm : PcmValue) (arg1 : option Z) : M W Buffer :=
  match pcm with
  | PUndefined =>
      throw (TypeError "Cannot read properties of undefined (reading 'length')")
  | PNull => throw (TypeError "Cannot read properties of null (reading 'length')")
  | PObject pcm => encode this pcm arg1
  end.

(** [function EncoderStream(encoder, mode, packetSize)] *)
Definition EncoderStream (encoder : EncoderT) (mode : option string)
    (packetSize : option Z) : completion EncoderStreamT :=
  if decide (mode = Some "Float32") then Normal (mkEncoderStream encoder Float32 packetSize)
  else if decide (mode = Some "Int16") then Normal (mkEncoderStream encoder Int16 packetSize)
  else Throw (TypeError ("mode cannot be " +:+ default "undefined" mode)).

(** [Encoder.prototype.stream] *)
Definition stream (this : EncoderT) (mode : option string) (packetSize : option Z)
  : completion EncoderStreamT :=
  EncoderStream this mode packetSize.

(** [EncoderStream.prototype._transform]: the typed array is made from the
    chunk before the [try], so its RangeError leaves [_transform] as a
    throw; only what [encode] throws goes to the callback. *)
Definition _transform (this : EncoderStreamT) (chunk : Buffer) : M W Callback :=
  let! chunk := lift_completion (new_TypedArray_view (stream_mode this) chunk) in
  let! result :=
    try_catch
      (let! result := encode (stream_encoder this) (PTyped chunk) (stream_packetSize this) in
       ret (inr result))
      (λ err, ret (inl (callback_err err))) in
  match result with
  | inl returned => ret returned
  | inr result => ret (callback_result result)
  end.
End encoder.
End encoder_js.

(** ** The stream that drives [_transform]

    [DecoderStream] and [EncoderStream] inherit from node's
    [stream.Transform], which is not part of the wrappers; both are made
    with [Transform.call(this, {})], so they are in byte mode.  What is used
    of it: a chunk written to a stream that is ready is handed to
    [_transform] once, chunks in the order of the writes;
    [callback(null, result)] pushes [result] to the readable side, where a
    result of length 0 adds nothing; [callback(err)] puts the stream in its
    error state; an exception thrown by [_transform] leaves [write] with
    that write never completed.  In the error state and after such a throw
    no chunk is transformed. *)
Inductive StreamState : Type :=
  | Ready
  | Faulted (err : exn)
  | Stalled.

Record Adapter : Type := mkAdapter {
  state : StreamState;
  emitted : list Buffer
}.

Definition new_adapter : Adapter := mkAdapter Ready [].

(** [this.push(result)] of a stream in byte mode. *)
Definition push (result : Buffer) (a : Adapter) : Adapter :=
  if len (bytes result) =? 0 then a
  else mkAdapter (state a) (emitted a ++ [result]).

Section Transform.
Context {E : Type}.
Variable transform : Buffer → M (World E) Callback.

Definition write (chunk : Buffer) : M (Adapter * World E) unit :=
  let! a := get_local in
  match state a with
  | Ready =>
      let! cb :=
        try_catch (outer (transform chunk))
          (λ err, run! set_local (mkAdapter Stalled (emitted a)) in throw err) in
      match cb with
      | callback_err err => set_local (mkAdapter (Faulted err) (emitted a))
      | callback_result result => set_local (push result a)
      end
  | Faulted _ | Stalled => ret tt
  end.

Fixpoint write_all (chunks : list Buffer) : M (Adapter * World E) unit :=
  match chunks with
  | [] => ret tt
  | chunk :: rest => run! write chunk in write_all rest
  end.
End Transform.

(** The chunks of a list that have a byte. *)
Definition nonempty (outs : list Buffer) : list Buffer :=
  filter (λ out, len (bytes out) ≠ 0) outs.

(** A sequence of operations of a session, one after the other. *)
Fixpoint in_sequence {S A B} (op : A → M S B) (xs : list A) : M S (list B) :=
  match xs with
  | [] => ret []
  | x :: rest =>
      let! y := op x in
      let! ys := in_sequence op rest in
      ret (y :: ys)
  end.

(** The calls of [calls] that run a coder: [_celt_encode],
    [_celt_encode_float], [_celt_decode], [_celt_decode_float]. *)
Definition is_coder_call (c : Call) : bool :=
  match c with
  | CEncode _ _ _ _ _ _ _ _ | CDecode _ _ _ _ _ _ _ => true
  | _ => false
  end.

Definition coder_calls (cs : list Call) : nat := length (filter is_coder_call cs).

(** A block of [n] bytes at [p] lies in the module's memory. *)
Definition in_heap {E} (l : Lib E) (p n : Z) : Prop :=
  0 ≤ p ∧ 0 ≤ n ∧ p + n ≤ len (HEAPU8 l).

(** ** A stand-in for the compiled module

    Small enough to run the wrappers on concrete inputs: a bump allocator
    over 4096 bytes of memory that never hands out address 0 for a request
    it can serve (dlmalloc's behaviour for [malloc(0)] included), mode and
    coder creation with the argument checks of CELT 0.7.1, and coders that
    report success.  Its hidden state is the allocator's break. *)
Module stub.

Definition store32 (p v : Z) (heap : list Z) : list Z :=
  write_at (Z.to_nat p) (le_bytes 4 v) heap.

Definition fresh : Lib Z := mkLib (replicate 4096 0) 8.

Definition malloc (size : Z) (l : Lib Z) : Z * Lib Z :=
  let p := native l in
  let chunk := Z.max 8 (8 * ((size + 7) / 8)) in
  if (size <? 0) || (len (HEAPU8 l) <? p + chunk) then (0, l)
  else (p, mkLib (HEAPU8 l) (p + chunk)).

Definition free (p : Z) (l : Lib Z) : Lib Z := l.

Definition CELT_BAD_ARG : Z := -1.

Definition mode_create (rate frameSize p_err : Z) (l : Lib Z) : Z * Lib Z :=
  if (rate <? 32000) || (96000 <? rate) || (frameSize <? 64) || (512 <? frameSize)
     || negb (Z.rem frameSize 2 =? 0)
  then (0, mkLib (store32 p_err CELT_BAD_ARG (HEAPU8 l)) (native l))
  else malloc 32 (mkLib (store32 p_err 0 (HEAPU8 l)) (native l)).

Definition coder_create (mode channels p_err : Z) (l : Lib Z) : Z * Lib Z :=
  if (channels <? 1) || (2 <? channels)
  then (0, mkLib (store32 p_err CELT_BAD_ARG (HEAPU8 l)) (native l))
  else malloc 64 (mkLib (store32 p_err 0 (HEAPU8 l)) (native l)).

Definition destroy (p : Z) (l : Lib Z) : Lib Z := l.

Definition encode (float : bool) (enc_p p_pcm zero p_data size : Z) (l : Lib Z) : Z * Lib Z :=
  if size <? 1 then (CELT_BAD_ARG, l)
  else
    let packet := take (Z.to_nat size) [1; 2; 3; 4] in
    (len packet, mkLib (write_at (Z.to_nat p_data) packet (HEAPU8 l)) (native l)).

Definition decode (float : bool) (dec_p p_data data_len p_pcm : Z) (l : Lib Z) : Z * Lib Z :=
  if data_len <? 0 then (CELT_BAD_ARG, l) else (0, l).

Definition strerror (errorId : option Z) (l : Lib Z) : Z * Lib Z :=
  match errorId with
  | Some c => if ToInt32 c =? 0 then (1000, l)
              else if ToInt32 c =? CELT_BAD_ARG then (1008, l) else (1032, l)
  | None => (1000, l)
  end.

Definition stringify (p : Z) (l : Lib Z) : string :=
  if p =? 1000 then "No error"
  else if p =? 1008 then "Invalid argument"
  else "Unknown error".

Definition engine : Engine Z :=
  mkEngine Z fresh malloc free mode_create destroy coder_create destroy
           coder_create destroy encode decode strerror stringify.

(** A world in which nothing has run yet and no script has defined a global
    variable. *)
Definition world : World Z := mkWorld ∅ 0 ∅ [].

End stub.

(** ** The sessions of the README, on the stand-in

    [new Encoder({ rate: 48000, frameSize: 256, channels: 1 })] and the
    decoder of the same options, each made in a world where nothing has run;
    the objects and the worlds the constructors leave. *)
Module scenario.

Definition options : Opts := mkOpts (Some 48000) (Some 256) (Some 1) None None.

Definition encoder : encoder_js.EncoderT :=
  encoder_js.mkEncoder 48000 256 1 None false 1 16 48.

Definition encoder_world : World Z :=
  snd (encoder_js.Encoder stub.engine options stub.world).

Definition decoder : decoder_js.DecoderT :=
  decoder_js.mkDecoder 48000 256 1 false 1 16 48.

Definition decoder_world : World Z :=
  snd (decoder_js.Decoder stub.engine options stub.world).

(** 256 zero samples as an Int16Array, and as the bytes of a chunk. *)
Definition silence : TypedArray := mkTypedArray Int16 (replicate 256 0).

Definition silent_chunk : Buffer := mkBuffer 0 (replicate 512 0).

Definition empty_chunk : Buffer := mkBuffer 0 [].

(** The encoder's world after a script has set a global
    [compressedSize = 960]. *)
Definition encoder_world_with_global : World Z :=
  mkWorld (instances encoder_world) (created encoder_world)
          {[ "compressedSize" := 960 ]} (calls encoder_world).

(** Options the stand-in refuses when it is asked for the coder (three
    channels), and options with a frame size of 0. *)
Definition three_channels : Opts := mkOpts None None (Some 3) None None.

Definition no_frame : Opts := mkOpts None (Some 0) None None None.

(** No channel and a rate of 42. *)
Definition no_channel_bad_rate : Opts := mkOpts (Some 42) None (Some 0) None None.

End scenario.

(** A module that takes every frame size and whose encoder writes nothing:
    it answers every [_celt_encode] with length 0.  On it, the decoder of
    [frameSize: 0] and the encoder of the scenario. *)
Module quiet.

Definition mode_create (rate frameSize p_err : Z) (l : Lib Z) : Z * Lib Z :=
  stub.malloc 32 (mkLib (stub.store32 p_err 0 (HEAPU8 l)) (native l)).

Definition encode (float : bool) (enc_p p_pcm zero p_data size : Z) (l : Lib Z) : Z * Lib Z :=
  (0, l).

Definition engine : Engine Z :=
  mkEngine Z stub.fresh stub.malloc stub.free mode_create stub.destroy
           stub.coder_create stub.destroy stub.coder_create stub.destroy
           encode stub.decode stub.strerror stub.stringify.

Definition decoder : decoder_js.DecoderT :=
  decoder_js.mkDecoder 48000 0 1 false 1 16 48.

Definition decoder_world : World Z :=
  snd (decoder_js.Decoder engine scenario.no_frame stub.world).

End quiet.

(** A module whose decoder refuses every packet, and further objects on
    the stand-in: a packet, a decoder made after the encoder of the
    scenario, and the sessions of [unsafe: true]. *)
Module refusing.

Definition decode (float : bool) (dec_p p_data data_len p_pcm : Z) (l : Lib Z) : Z * Lib Z :=
  (stub.CELT_BAD_ARG, l).

Definition engine : Engine Z :=
  mkEngine Z stub.fresh stub.malloc stub.free stub.mode_create stub.destroy
           stub.coder_create stub.destroy stub.coder_create stub.destroy
           stub.encode decode stub.strerror stub.stringify.

End refusing.

Module more.

Definition packet : Buffer := mkBuffer 0 [1; 2; 3; 4].

Definition second_decoder : decoder_js.DecoderT :=
  decoder_js.mkDecoder 48000 256 1 false 2 16 48.

Definition second_world : World Z :=
  snd (decoder_js.Decoder stub.engine scenario.options scenario.encoder_world).

Definition unsafe_options : Opts := mkOpts None None None None (Some true).

Definition unsafe_encoder : encoder_js.EncoderT :=
  encoder_js.mkEncoder 48000 256 1 None true 0 16 48.

Definition unsafe_decoder : decoder_js.DecoderT :=
  decoder_js.mkDecoder 48000 256 1 true 0 16 48.

Definition unsafe_encoder_world : World Z :=
  snd (encoder_js.Encoder stub.engine unsafe_options stub.world).

Definition unsafe_decoder_world : World Z :=
  snd (decoder_js.Decoder stub.engine unsafe_options stub.world).

(** A chunk of 513 bytes at offset 0, and the same bytes at offset 1. *)
Definition long_chunk : Buffer := mkBuffer 0 (replicate 513 0).

Definition odd_chunk : Buffer := mkBuffer 1 (replicate 512 0).

End more.

(** ** Vocabulary of the statements *)

(** The calls made to the module between the worlds [w] and [w']. *)
Definition calls_since {E} (w w' : World E) : list Call :=
  drop (length (calls w)) (calls w').

(** The decode method of a result representation, as [DecoderStream]
    chooses it from its [mode]. *)
Definition decode_method {E} (eng : Engine E) (k : ElemKind)
  : decoder_js.DecoderT → DecodeArg → M (World E) TypedArray :=
  match k with
  | Int16 => decoder_js.decodeInt16 eng
  | Float32 => decoder_js.decodeFloat32 eng
  end.

(** The one operation of the session that a chunk written to a stream
    stands for: [encode] on the chunk seen as a typed array of the stream's
    kind, and the stream's decode method on the chunk as a Buffer, its
    result seen as bytes again. *)
Definition encoder_operation {E} (eng : Engine E) (es : encoder_js.EncoderStreamT)
    (chunk : Buffer) : M (World E) Buffer :=
  let! frame := lift_completion (new_TypedArray_view (encoder_js.stream_mode es) chunk) in
  encoder_js.encode eng (encoder_js.stream_encoder es) (PTyped frame)
    (encoder_js.stream_packetSize es).

Definition decoder_operation {E} (ds : @decoder_js.DecoderStreamT E)
    (chunk : Buffer) : M (World E) Buffer :=
  let! array := decoder_js.stream_decode ds (DBuffer chunk) in
  ret (mkBuffer 0 (bytes_of_elems (kind array) (elems array))).

Definition valid_config (x : Extended) : Prop :=
  1 ≤ x_channels x ∧ 32000 ≤ x_rate x ≤ 96000 ∧ Z.rem (x_rate x) 2 = 0.

(** The ways a constructor can end, for the options [x] after [extend]:
    [create] is the call that makes the coder handle and [mk] builds the
    object from the instance, the mode and the handle. *)
Section Construction.
Context {E : Type} (eng : Engine E) {T : Type}.
Variable create : nat → Z → Z → Z → Z → Call.
Variable mk : nat → Z → Z → T.
Variable x : Extended.

Definition chosen_lib (w : World E) : nat :=
  if x_unsafe x then instance else S (created w).

Inductive constructed (w w' : World E) : completion T → Prop :=
  | bad_channels :
      x_channels x < 1 → w' = w →
      constructed w w' (Throw (Error "channels must be greater than 0"))
  | bad_rate_range :
      1 ≤ x_channels x → x_rate x < 32000 ∨ 96000 < x_rate x → w' = w →
      constructed w w' (Throw (Error "rate must be in range 32000 - 96000"))
  | bad_rate_odd :
      1 ≤ x_channels x → 32000 ≤ x_rate x ≤ 96000 → Z.rem (x_rate x) 2 ≠ 0 →
      w' = w →
      constructed w w' (Throw (Error "rate must be even"))
  | mode_failed lib p_err err sp l :
      valid_config x → lib = chosen_lib w →
      calls w' = calls w ++
        [CMalloc lib 4 p_err;
         CModeCreate lib (x_rate x) (x_frameSize x) p_err 0;
         CStrerror instance err sp;
         CFree lib p_err] →
      constructed w w' (Throw (Error (Pointer_stringify eng sp l)))
  | handle_failed lib p_err mode err sp l :
      valid_config x → lib = chosen_lib w → mode ≠ 0 →
      calls w' = calls w ++
        [CMalloc lib 4 p_err;
         CModeCreate lib (x_rate x) (x_frameSize x) p_err mode;
         create lib mode (x_channels x) p_err 0;
         CModeDestroy lib mode;
         CStrerror instance err sp;
         CFree lib p_err] →
      constructed w w' (Throw (Error (Pointer_stringify eng sp l)))
  | created_ok lib p_err mode handle :
      valid_config x → lib = chosen_lib w → mode ≠ 0 → handle ≠ 0 →
      calls w' = calls w ++
        [CMalloc lib 4 p_err;
         CModeCreate lib (x_rate x) (x_frameSize x) p_err mode;
         create lib mode (x_channels x) p_err handle;
         CFree lib p_err] →
      constructed w w' (Normal (mk lib mode handle)).
End Construction.

(** A construction that raised no configuration error: it went on to the
    module, asking it for a mode of the configured rate and frame size, and
    ended with the object or with a diagnostic of the module. *)
Definition reaches_engine {E T} (eng : Engine E) (x : Extended)
    (w w' : World E) (r : completion T) : Prop :=
  (∃ lib p_err mode rest,
     calls_since w w' =
       CMalloc lib 4 p_err :: CModeCreate lib (x_rate x) (x_frameSize x) p_err mode :: rest) ∧
  (is_Normal r = true ∨ ∃ sp l, r = Throw (Error (Pointer_stringify eng sp l))).

(** Worlds reached by running the wrappers, and objects with an instance of
    their own. *)
Section Histories.
Context {E : Type} (eng : Engine E).

(** [reached w w']: [w'] comes from [w] by runs of the wrappers
    (constructions, [encode], the decode methods, [destroy]), in any number
    and order and whatever their outcome. *)
Inductive reached (w : World E) : World E → Prop :=
  | reached_here : reached w w
  | reached_Encoder opts r w1 w2 :
      reached w w1 → encoder_js.Encoder eng opts w1 = (r, w2) → reached w w2
  | reached_Decoder opts r w1 w2 :
      reached w w1 → decoder_js.Decoder eng opts w1 = (r, w2) → reached w w2
  | reached_encode this pcm arg1 r w1 w2 :
      reached w w1 → encoder_js.encode eng this pcm arg1 w1 = (r, w2) → reached w w2
  | reached_decode this k data r w1 w2 :
      reached w w1 → decode_method eng k this data w1 = (r, w2) → reached w w2
  | reached_destroy_encoder this r w1 w2 :
      reached w w1 → encoder_js.destroy eng this w1 = (r, w2) → reached w w2
  | reached_destroy_decoder this r w1 w2 :
      reached w w1 → decoder_js.destroy eng this w1 = (r, w2) → reached w w2.

(** [made_own lib w w']: a construction without [unsafe], run in [w],
    returned an object that works on the instance [lib], and left [w']. *)
Definition made_own (lib : nat) (w w' : World E) : Prop :=
  (∃ opts enc,
     unsafe opts ≠ Some true ∧
     encoder_js.Encoder eng opts w = (Normal enc, w') ∧ encoder_js._lib enc = lib) ∨
  (∃ opts dec,
     unsafe opts ≠ Some true ∧
     decoder_js.Decoder eng opts w = (Normal dec, w') ∧ decoder_js._lib dec = lib).
End Histories.

(** The blocks a list of calls allocates and the blocks it frees, in the
    order of the calls; [nonnull] drops the null pointer. *)
Definition allocated (cs : list Call) : list Z :=
  omap (λ c, match c with CMalloc _ _ p => Some p | _ => None end) cs.

Definition freed (cs : list Call) : list Z :=
  omap (λ c, match c with CFree _ p => Some p | _ => None end) cs.

Definition nonnull (ps : list Z) : list Z := filter (λ p, p ≠ 0) ps.

(** The calls of a list that are made to the instance [inst]. *)
Definition instance_of (c : Call) : nat :=
  match c with
  | CMalloc i _ _ | CFree i _ | CModeCreate i _ _ _ _ | CModeDestroy i _
  | CEncoderCreate i _ _ _ _ | CEncoderDestroy i _ | CDecoderCreate i _ _ _ _
  | CDecoderDestroy i _ | CEncode i _ _ _ _ _ _ _ | CDecode i _ _ _ _ _ _
  | CStrerror i _ _ => i
  end.

(** Every byte of a memory is a byte. *)
Definition bytes_ok (h : list Z) : Prop := Forall (λ b, 0 ≤ b < 256) h.

(** * Proofs *)

(** Running a wrapper symbolically: the monad is unfolded, every test on a
    boolean and every answer of the module is split. *)
Ltac unfold_monad :=
  cbv beta iota delta [bind ret throw try_finally try_catch with_locals outer get_local
    set_local lift_completion export export_void malloc free heap_set
    heap_read lib_read global_var libceltjs utils_js.stringifyError
    decoder_js.celt_decode encoder_js.celt_encode typed_set] in *.

Ltac engine_call x :=
  lazymatch x with
  | _malloc _ _ _ => idtac
  | _celt_mode_create _ _ _ _ _ => idtac
  | _celt_encoder_create _ _ _ _ _ => idtac
  | _celt_decoder_create _ _ _ _ _ => idtac
  | _celt_encode _ _ _ _ _ _ _ _ => idtac
  | _celt_decode _ _ _ _ _ _ _ => idtac
  | _celt_strerror _ _ _ => idtac
  end.

Ltac split_call :=
  match goal with
  | H : context [if ?b then _ else _] |- _ =>
      lazymatch type of b with bool => destruct b eqn:? end
  | |- context [if ?b then _ else _] =>
      lazymatch type of b with bool => destruct b eqn:? end
  | H : context [let '(_, _) := ?x in _] |- _ => engine_call x; destruct x eqn:?
  | |- context [let '(_, _) := ?x in _] => engine_call x; destruct x eqn:?
  | H : context [match globals ?w !! ?k with _ => _ end] |- _ =>
      destruct (globals w !! k) eqn:?
  | |- context [match globals ?w !! ?k with _ => _ end] =>
      destruct (globals w !! k) eqn:?
  end.

Ltac run_wrapper :=
  unfold_monad; repeat (simplify_eq/=; split_call); simplify_eq/=.

Ltac to_Z :=
  repeat match goal with
  | H : (_ || _) = false |- _ => apply orb_false_iff in H; destruct H
  | H : (_ || _) = true |- _ => apply orb_true_iff in H
  | H : negb _ = false |- _ => apply negb_false_iff in H
  | H : negb _ = true |- _ => apply negb_true_iff in H
  | H : (_ >? _) = _ |- _ => rewrite Z.gtb_ltb in H
  | H : (_ <? _) = true |- _ => apply Z.ltb_lt in H
  | H : (_ <? _) = false |- _ => apply Z.ltb_ge in H
  | H : (_ <=? _) = true |- _ => apply Z.leb_le in H
  | H : (_ <=? _) = false |- _ => apply Z.leb_gt in H
  | H : (_ =? _) = true |- _ => apply Z.eqb_eq in H
  | H : (_ =? _) = false |- _ => apply Z.eqb_neq in H
  end.

Ltac list_calls :=
  simpl; rewrite <- ?(assoc_L (++)); simpl;
  try first [reflexivity | symmetry; apply app_nil_r].

Ltac pick_case := first [done | by left | right; pick_case].

Ltac solve_constructed Hlib :=
  first
    [ by apply bad_channels
    | apply bad_rate_range; [lia | lia | done]
    | apply bad_rate_odd; [lia | lia | done | done]
    | eapply mode_failed; [unfold valid_config; lia | | by list_calls]; by rewrite Hlib
    | eapply handle_failed;
        [unfold valid_config; lia | | done | by list_calls]; by rewrite Hlib
    | eapply created_ok;
        [unfold valid_config; lia | | done | done | by list_calls]; by rewrite Hlib ].

(** Which of the listed calls the call of [H : c ∈ [c1; ..; cn]] is. *)
Ltac find_call H :=
  repeat (apply elem_of_cons in H as [H | H]; [try discriminate H |]);
  try (by apply elem_of_nil in H).

(** Reading the state of an instance back from a world that was just
    written. *)
Section World_lookup.
Context {E : Type} (eng : Engine E).

Lemma lib_at_insert m c g cs inst (l : Lib E) :
  lib_at eng (mkWorld (<[inst := l]> m) c g cs) inst = l.
Proof. unfold lib_at. cbn [instances]. by rewrite lookup_insert_eq. Qed.

Lemma lib_at_insert_ne m c g cs i j (l : Lib E) :
  i ≠ j → lib_at eng (mkWorld (<[i := l]> m) c g cs) j = lib_at eng (mkWorld m c g cs) j.
Proof. intros Hne. unfold lib_at. cbn [instances]. by rewrite lookup_insert_ne. Qed.

Lemma lib_at_world (w : World E) c g cs j :
  lib_at eng (mkWorld (instances w) c g cs) j = lib_at eng w j.
Proof. reflexivity. Qed.

End World_lookup.

(** One step of a constructor run: the answer just rewritten is passed on,
    and the state of an instance is read back from the world. *)
Ltac constructor_step :=
  cbn beta iota zeta delta [fst snd Z.eqb];
  repeat first
    [ rewrite lib_at_insert
    | rewrite lib_at_insert_ne by done
    | rewrite lib_at_world ];
  cbn [HEAPU8 native].

Section Proofs.
Context {E : Type} (eng : Engine E).

Lemma calls_since_app (w w' : World E) cs :
  calls w' = calls w ++ cs → calls_since w w' = cs.
Proof. intros H. unfold calls_since. rewrite H. apply drop_app_length. Qed.

Lemma calls_since_refl (w : World E) : calls_since w w = [].
Proof. apply calls_since_app. by rewrite app_nil_r. Qed.

Lemma elem_of_calls_since (w w' : World E) cs c :
  calls w' = calls w ++ cs → c ∈ calls_since w w' → c ∈ cs.
Proof. intros H. by rewrite (calls_since_app _ _ _ H). Qed.

(** Every run of a constructor ends in one of the six ways. *)
Lemma Encoder_constructed opts w r w' :
  encoder_js.Encoder eng opts w = (r, w') →
  let x := extend defaults opts in
  constructed eng CEncoderCreate
    (encoder_js.mkEncoder (x_rate x) (x_frameSize x) (x_channels x)
       (x_application x) (x_unsafe x)) x w w' r.
Proof.
  intros Hrun. unfold encoder_js.Encoder, encoder_js._error in Hrun.
  cbv zeta in *. revert Hrun. generalize (extend defaults opts). intros x Hrun.
  assert (Hlib : chosen_lib x w = if x_unsafe x then instance else S (created w))
    by reflexivity.
  run_wrapper; to_Z; subst; solve_constructed Hlib.
Qed.

Lemma Decoder_constructed opts w r w' :
  decoder_js.Decoder eng opts w = (r, w') →
  let x := extend defaults opts in
  constructed eng CDecoderCreate
    (decoder_js.mkDecoder (x_rate x) (x_frameSize x) (x_channels x) (x_unsafe x))
    x w w' r.
Proof.
  intros Hrun. unfold decoder_js.Decoder, decoder_js._error in Hrun.
  cbv zeta in *. revert Hrun. generalize (extend defaults opts). intros x Hrun.
  assert (Hlib : chosen_lib x w = if x_unsafe x then instance else S (created w))
    by reflexivity.
  run_wrapper; to_Z; subst; solve_constructed Hlib.
Qed.

Lemma rem2_even (n : Z) : 0 ≤ n → Z.rem n 2 = 0 ↔ Z.even n = true.
Proof.
  intros Hn. rewrite Z.rem_mod_nonneg by lia. rewrite Zmod_even.
  destruct (Z.even n); split; (done || lia).
Qed.

Lemma odd_not_even (n : Z) : Z.odd n = true → Z.even n = false.
Proof. rewrite <- Z.negb_even. by destruct (Z.even n). Qed.
Lemma constructed_valid {T} create (mk : nat → Z → Z → T) x (w w' : World E) r :
  constructed eng create mk x w w' r → valid_config x → reaches_engine eng x w w' r.
Proof.
  unfold reaches_engine.
  intros Hc Hv. inversion Hc; subst; unfold valid_config in *; try lia.
  all: match goal with H : calls _ = _ ++ _ |- _ => rewrite (calls_since_app _ _ _ H) end.
  all: split; [by eauto 10 | by eauto].
Qed.

Lemma constructed_bad_channels {T} create (mk : nat → Z → Z → T) x (w w' : World E) r :
  constructed eng create mk x w w' r → x_channels x < 1 →
  r = Throw (Error "channels must be greater than 0") ∧ w' = w.
Proof.
  intros Hc Hv. inversion Hc; subst; unfold valid_config in *; (done || lia).
Qed.

Lemma constructed_bad_rate {T} create (mk : nat → Z → Z → T) x (w w' : World E) r :
  constructed eng create mk x w w' r → 1 ≤ x_channels x →
  x_rate x < 32000 ∨ 96000 < x_rate x ∨ Z.odd (x_rate x) = true →
  (x_rate x < 32000 ∨ 96000 < x_rate x →
     r = Throw (Error "rate must be in range 32000 - 96000")) ∧
  (32000 ≤ x_rate x ≤ 96000 → r = Throw (Error "rate must be even")) ∧ w' = w.
Proof.
  intros Hc Hch Hrate.
  assert (Hbad : ¬ (32000 ≤ x_rate x ≤ 96000 ∧ Z.rem (x_rate x) 2 = 0)).
  { intros [Hr Hrem]. destruct Hrate as [?|[?|Hodd]]; try lia.
    apply rem2_even in Hrem; [|lia]. apply odd_not_even in Hodd. congruence. }
  inversion Hc; subst; unfold valid_config in *;
    try lia; try (exfalso; apply Hbad; lia); (split; [|split]); (done || lia).
Qed.

(** C3, amended: a channel count below 1 is refused with the diagnostic
    that names "channels"; given at least one channel, a rate outside
    32000..96000 or an odd rate is refused with a diagnostic that names
    "rate"; both before the module is touched.  A configuration with at
    least one channel and an even rate in range raises neither: its
    construction goes on to the module. *)
Theorem config_errors_name_the_field opts (w : World E) :
  let x := extend defaults opts in
  (x_channels x < 1 →
     ∃ m, references "channels" m = true ∧
          encoder_js.Encoder eng opts w = (Throw (Error m), w) ∧
          decoder_js.Decoder eng opts w = (Throw (Error m), w)) ∧
  (1 ≤ x_channels x →
   x_rate x < 32000 ∨ 96000 < x_rate x ∨ Z.odd (x_rate x) = true →
     ∃ m, references "rate" m = true ∧
          encoder_js.Encoder eng opts w = (Throw (Error m), w) ∧
          decoder_js.Decoder eng opts w = (Throw (Error m), w)) ∧
  (1 ≤ x_channels x → 32000 ≤ x_rate x ≤ 96000 → Z.even (x_rate x) = true →
     (∀ r w', encoder_js.Encoder eng opts w = (r, w') → reaches_engine eng x w w' r) ∧
     (∀ r w', decoder_js.Decoder eng opts w = (r, w') → reaches_engine eng x w w' r)).
Proof.
  intros x.
  destruct (encoder_js.Encoder eng opts w) as [re we] eqn:He.
  destruct (decoder_js.Decoder eng opts w) as [rd wd] eqn:Hd.
  apply Encoder_constructed in He. apply Decoder_constructed in Hd.
  fold x in He, Hd. split; [|split].
  - intros Hch.
    destruct (constructed_bad_channels _ _ _ _ _ _ He Hch) as [-> ->].
    destruct (constructed_bad_channels _ _ _ _ _ _ Hd Hch) as [-> ->].
    eexists; (split; [|split; reflexivity]); reflexivity.
  - intros Hch Hrate.
    destruct (constructed_bad_rate _ _ _ _ _ _ He Hch Hrate) as (Hre1 & Hre2 & ->).
    destruct (constructed_bad_rate _ _ _ _ _ _ Hd Hch Hrate) as (Hrd1 & Hrd2 & ->).
    destruct (decide (32000 ≤ x_rate x ≤ 96000)) as [Hin | Hout].
    + rewrite (Hre2 Hin), (Hrd2 Hin).
      eexists; (split; [|split; reflexivity]); reflexivity.
    + rewrite Hre1, Hrd1 by lia.
      eexists; (split; [|split; reflexivity]); reflexivity.
  - intros Hch Hrate Heven.
    assert (valid_config x).
    { unfold valid_config. split; [done | split; [done |]]. apply rem2_even; [lia | done]. }
    split; intros r w' Heq; simplify_eq; by eapply constructed_valid.
Qed.

Lemma constructed_Normal {T} create (mk : nat → Z → Z → T) x (w w' : World E) s :
  constructed eng create mk x w w' (Normal s) →
  ∃ lib mode handle, s = mk lib mode handle.
Proof. intros Hc. inversion Hc; subst. by eauto. Qed.

(** C8: on an encoder or decoder made without [unsafe] (absent or
    false), [destroy] returns normally and leaves the world as it was: no
    call reaches the module, nothing is destroyed, and an operation on the
    session after [destroy] runs exactly as it would have without it. *)
Theorem destroy_is_a_noop_in_safe_mode opts (w : World E) :
  unsafe opts ≠ Some true →
  (∀ enc we,
     encoder_js.Encoder eng opts w = (Normal enc, we) →
     ∀ w1 : World E,
       encoder_js.destroy eng enc w1 = (Normal tt, w1) ∧
       calls_since w1 w1 = [] ∧
       ∀ pcm arg1,
         (run! encoder_js.destroy eng enc in encoder_js.encode eng enc pcm arg1) w1 =
         encoder_js.encode eng enc pcm arg1 w1) ∧
  (∀ dec wd,
     decoder_js.Decoder eng opts w = (Normal dec, wd) →
     ∀ w1 : World E,
       decoder_js.destroy eng dec w1 = (Normal tt, w1) ∧
       calls_since w1 w1 = [] ∧
       ∀ k data,
         (run! decoder_js.destroy eng dec in decode_method eng k dec data) w1 =
         decode_method eng k dec data w1).
Proof.
  intros Hsafe.
  assert (default false (unsafe opts) = false) as Hx
    by (by destruct (unsafe opts) as [[]|]).
  split.
  - intros enc we He w1.
    apply Encoder_constructed, constructed_Normal in He as (? & ? & ? & ->).
    unfold encoder_js.destroy, bind. simpl. rewrite Hx.
    rewrite calls_since_refl. done.
  - intros dec wd Hd w1.
    apply Decoder_constructed, constructed_Normal in Hd as (? & ? & ? & ->).
    unfold decoder_js.destroy, bind. simpl. rewrite Hx.
    rewrite calls_since_refl. done.
Qed.

(** C10: whatever [frameSize] the options give, a configuration with at
    least one channel and an even rate in range raises no configuration
    error: the constructor asks the module for a mode of exactly that
    frame size, and ends with an object of that frame size or with a
    diagnostic of the module. *)
Theorem frameSize_is_not_validated opts fs (w : World E) re we rd wd :
  let x := extend defaults opts in
  frameSize opts = Some fs →
  1 ≤ x_channels x → 32000 ≤ x_rate x ≤ 96000 → Z.even (x_rate x) = true →
  encoder_js.Encoder eng opts w = (re, we) →
  decoder_js.Decoder eng opts w = (rd, wd) →
  (∃ lib p_err mode rest,
     calls_since w we =
       CMalloc lib 4 p_err :: CModeCreate lib (x_rate x) fs p_err mode :: rest) ∧
  ((∃ enc, re = Normal enc ∧ encoder_js._frameSize enc = fs) ∨
   ∃ sp l, re = Throw (Error (Pointer_stringify eng sp l))) ∧
  (∃ lib p_err mode rest,
     calls_since w wd =
       CMalloc lib 4 p_err :: CModeCreate lib (x_rate x) fs p_err mode :: rest) ∧
  ((∃ dec, rd = Normal dec ∧ decoder_js._frameSize dec = fs) ∨
   ∃ sp l, rd = Throw (Error (Pointer_stringify eng sp l))).
Proof.
  intros x Hfs Hch Hrate Heven He Hd.
  assert (x_frameSize x = fs) as Hx by (simpl; by rewrite Hfs).
  assert (valid_config x) as Hv.
  { unfold valid_config. split; [done | split; [done |]]. apply rem2_even; [lia | done]. }
  apply Encoder_constructed in He. apply Decoder_constructed in Hd. fold x in He, Hd.
  pose proof (constructed_valid _ _ _ _ _ _ He Hv) as [He1 He2].
  pose proof (constructed_valid _ _ _ _ _ _ Hd Hv) as [Hd1 Hd2].
  rewrite Hx in He1, Hd1.
  split; [done | split; [| split; [done |]]].
  - destruct He2 as [Hn | ?]; [left | by right].
    destruct re as [enc |]; [| done].
    apply constructed_Normal in He as (? & ? & ? & ->). by eauto.
  - destruct Hd2 as [Hn | ?]; [left | by right].
    destruct rd as [dec |]; [| done].
    apply constructed_Normal in Hd as (? & ? & ? & ->). by eauto.
Qed.

(** C4: a typed array, Int16 or Float32, whose length is not
    frameSize * channels (the empty one included) is refused by [encode]
    with the size Error, and the world is left as it was: no allocation
    and no call of the module precede the check. *)
Theorem encode_refuses_wrong_length (this : encoder_js.EncoderT) k samples arg1
    (w : World E) :
  len samples ≠ encoder_js._frameSize this * encoder_js._channels this →
  encoder_js.encode eng this (PTyped (mkTypedArray k samples)) arg1 w =
    (Throw (Error "frames must be exactly of size frameSize * channels"), w) ∧
  calls_since w w = [].
Proof.
  intros Hlen. unfold encoder_js.encode. simpl.
  rewrite bool_decide_eq_false_2 by congruence. simpl.
  by rewrite calls_since_refl.
Qed.

(** C9: a [data] that is neither null nor a Buffer makes both decode
    methods throw the TypeError; the only calls made to the module are the
    allocation of the PCM block before the check and its release, and no
    coder runs. *)
Theorem decode_refuses_non_buffer (this : decoder_js.DecoderT) k data (w : World E) :
  data ≠ DNull → (∀ buf, data ≠ DBuffer buf) →
  ∃ p_pcm w',
    decode_method eng k this data w =
      (Throw (TypeError "data must be Buffer or null"), w') ∧
    calls_since w w' =
      [CMalloc (decoder_js._lib this)
         (decoder_js._frameSize this * BYTES_PER_ELEMENT k * decoder_js._channels this)
         p_pcm;
       CFree (decoder_js._lib this) p_pcm] ∧
    coder_calls (calls_since w w') = 0%nat.
Proof.
  intros Hnull Hbuf.
  destruct data as [| buf | n | s | ]; [done | by destruct (Hbuf buf) | | |].
  all: destruct k; unfold decode_method, decoder_js.decodeInt16, decoder_js.decodeFloat32,
         decoder_js._decode; run_wrapper.
  all: do 2 eexists; split; [reflexivity |].
  all: erewrite calls_since_app by list_calls; done.
Qed.

Lemma length_elems_of_bytes k n bs : length (elems_of_bytes k n bs) = n.
Proof.
  revert bs. induction n as [| n IH]; intros bs; [done |].
  cbn [elems_of_bytes length]. by rewrite IH.
Qed.

Lemma js_slice_length h p n :
  0 ≤ p → 0 ≤ n → p + n ≤ len h → len (js_slice h p (p + n)) = n.
Proof.
  unfold js_slice, rel_index, len. intros Hp Hn Hfit.
  destruct (Z.ltb_spec p 0); [lia |].
  destruct (Z.ltb_spec (p + n) 0); [lia |].
  rewrite length_take, length_drop. lia.
Qed.

(** A buffer of [BYTES_PER_ELEMENT k * count] bytes makes a typed array of
    [count] elements. *)
Lemma new_TypedArray_whole k buffer count :
  0 ≤ count → len buffer = count * BYTES_PER_ELEMENT k →
  ∃ frame, new_TypedArray k buffer = Normal frame ∧
           kind frame = k ∧ len (elems frame) = count.
Proof.
  intros Hc Hlen. unfold new_TypedArray. rewrite Hlen.
  assert (BYTES_PER_ELEMENT k ≠ 0) as Hk by (by destruct k).
  rewrite Z.rem_mul by done. simpl.
  eexists. split; [reflexivity |]. split; [done |]. simpl.
  unfold len at 1. rewrite length_elems_of_bytes, Z.div_mul by done. lia.
Qed.

(** C5: on the loss signal ([null]) both decode methods call the coder
    with a null data pointer and length 0; when the coder answers with a
    status that is not negative, and the PCM block the allocator handed out
    lies in the module's memory, the method returns a typed array of its
    kind with exactly frameSize * channels samples. *)
Theorem loss_signal_yields_a_full_frame (this : decoder_js.DecoderT) k (w : World E)
    p_pcm l1 status l2 :
  let pcmSize :=
    decoder_js._frameSize this * BYTES_PER_ELEMENT k * decoder_js._channels this in
  let float := match k with Int16 => false | Float32 => true end in
  _malloc eng pcmSize (lib_at eng w (decoder_js._lib this)) = (p_pcm, l1) →
  _celt_decode eng float (decoder_js._dec_p this) 0 0 p_pcm l1 = (status, l2) →
  0 ≤ status →
  in_heap l2 p_pcm pcmSize →
  ∃ frame w',
    decode_method eng k this DNull w = (Normal frame, w') ∧
    kind frame = k ∧
    len (elems frame) = decoder_js._frameSize this * decoder_js._channels this ∧
    calls_since w w' =
      [CMalloc (decoder_js._lib this) pcmSize p_pcm;
       CDecode (decoder_js._lib this) float (decoder_js._dec_p this) 0 0 p_pcm status;
       CFree (decoder_js._lib this) p_pcm].
Proof.
  intros pcmSize float Hmalloc Hdecode Hok (Hp & Hn & Hfit).
  assert (0 < BYTES_PER_ELEMENT k) as Hk by (by destruct k).
  assert (0 ≤ decoder_js._frameSize this * decoder_js._channels this) as Hcount
    by (subst pcmSize; nia).
  destruct (new_TypedArray_whole k
              (js_slice (HEAPU8 l2) p_pcm (p_pcm + pcmSize))
              (decoder_js._frameSize this * decoder_js._channels this))
    as (frame & Hframe & Hkind & Hlen); [done | |].
  { rewrite js_slice_length by done. subst pcmSize. lia. }
  exists frame.
  destruct k; subst pcmSize float; cbn [BYTES_PER_ELEMENT] in *;
    unfold decode_method, decoder_js.decodeInt16, decoder_js.decodeFloat32,
      decoder_js._decode;
    unfold_monad; cbv zeta; rewrite Hmalloc; cbn beta iota zeta delta [fst snd];
    rewrite lib_at_insert, Hdecode; cbn beta iota zeta delta [fst snd];
    (destruct (Z.ltb_spec status 0); [lia |]);
    rewrite ?lib_at_insert; simpl; rewrite Hframe;
    (eexists; split; [reflexivity |]; split; [done |]; split; [done |]);
    erewrite calls_since_app by list_calls; done.
Qed.

(** What a run of [encode] can be: the calls it makes, and how it ends
    with and without a global [compressedSize]. *)
Lemma encode_outcome (this : encoder_js.EncoderT) pcm arg1 (w : World E) r w' :
  encoder_js.encode eng this pcm arg1 w = (r, w') →
  ∃ cs, calls w' = calls w ++ cs ∧
    (is_Normal r = true → coder_calls cs = 1%nat) ∧
    (globals w !! "compressedSize" = None →
       coder_calls cs = 0%nat ∧
       (r = Throw (Error "frames must be exactly of size frameSize * channels") ∨
        r = Throw (TypeError "pcm must be Int16Array or Float32Array") ∨
        r = Throw (RangeError "offset is out of bounds") ∨
        r = Throw (ReferenceError "compressedSize is not defined"))).
Proof.
  intros Hrun. unfold encoder_js.encode in Hrun.
  destruct pcm as [[[] samples] | n]; run_wrapper.
  all: eexists; (split; [by list_calls |]); split; [by intros |].
  all: intros Hglobal; try done.
  all: split; [done | pick_case].
Qed.

(** C1: [encode] declares no second parameter, so with no global
    [compressedSize] it never returns a packet, whatever the frame and
    whatever is passed for the packet size: it ends in a throw (the
    ReferenceError for a frame that was accepted and copied), and no coder
    is called. *)
Theorem encode_never_returns_a_packet (this : encoder_js.EncoderT) pcm arg1
    (w : World E) r w' :
  globals w !! "compressedSize" = None →
  encoder_js.encode eng this pcm arg1 w = (r, w') →
  is_Normal r = false ∧
  coder_calls (calls_since w w') = 0%nat ∧
  (r = Throw (Error "frames must be exactly of size frameSize * channels") ∨
   r = Throw (TypeError "pcm must be Int16Array or Float32Array") ∨
   r = Throw (RangeError "offset is out of bounds") ∨
   r = Throw (ReferenceError "compressedSize is not defined")).
Proof.
  intros Hglobal Hrun.
  apply encode_outcome in Hrun as (cs & Hcs & _ & Hno).
  destruct (Hno Hglobal) as [Hcount Hr].
  rewrite (calls_since_app _ _ _ Hcs).
  split; [| done]. by destruct Hr as [-> | [-> | [-> | ->]]].
Qed.

(** What a run of a decode method can be: the calls it makes. *)
Lemma decode_outcome (this : decoder_js.DecoderT) k data (w : World E) r w' :
  decode_method eng k this data w = (r, w') →
  let lib := decoder_js._lib this in
  let pcmSize :=
    decoder_js._frameSize this * BYTES_PER_ELEMENT k * decoder_js._channels this in
  let float := match k with Int16 => false | Float32 => true end in
  ∃ cs, calls w' = calls w ++ cs ∧
    (is_Normal r = true → coder_calls cs = 1%nat) ∧
    match data with
    | DNull =>
        ∃ p_pcm status rest,
          cs = CMalloc lib pcmSize p_pcm ::
               CDecode lib float (decoder_js._dec_p this) 0 0 p_pcm status :: rest
    | DBuffer buf =>
        ∃ p_pcm p_data rest,
          cs = CMalloc lib pcmSize p_pcm :: CMalloc lib (len (bytes buf)) p_data :: rest ∧
          ∀ inst fl dec_p pd dl pp status,
            CDecode inst fl dec_p pd dl pp status ∈ rest →
            pd = p_data ∧ dl = len (bytes buf)
    | _ => True
    end.
Proof.
  intros Hrun lib pcmSize float. subst lib pcmSize float.
  destruct k, data;
    unfold decode_method, decoder_js.decodeInt16, decoder_js.decodeFloat32,
      decoder_js._decode, new_TypedArray in Hrun; run_wrapper.
  all: eexists; (split; [by list_calls |]); split; [by intros |]; try done.
  all: do 3 eexists; try (split; [reflexivity |]); try reflexivity.
  all: intros inst fl dec_p pd dl pp status Hin; find_call Hin.
  all: by injection Hin; intros; subst.
Qed.

Lemma DecoderStream_Normal (dec : decoder_js.DecoderT) mode (st : decoder_js.DecoderStreamT) :
  decoder_js.DecoderStream eng dec mode = Normal st →
  ∃ k, st = decoder_js.mkDecoderStream (decode_method eng k dec).
Proof.
  unfold decoder_js.DecoderStream. intros H.
  repeat case_decide; simplify_eq; [by exists Float32 | by exists Int16].
Qed.

(** [_transform] of the decoder stream is the decode method on the chunk as
    a Buffer, its result or its exception handed to the callback. *)
Lemma decoder_transform (st : decoder_js.DecoderStreamT) chunk (w : World E) :
  decoder_js._transform st chunk w =
  match decoder_js.stream_decode st (DBuffer chunk) w with
  | (Normal array, w') =>
      (Normal (callback_result (mkBuffer 0 (bytes_of_elems (kind array) (elems array)))), w')
  | (Throw err, w') => (Normal (callback_err err), w')
  end.
Proof.
  unfold decoder_js._transform, bind, try_catch, ret.
  by destruct (decoder_js.stream_decode st (DBuffer chunk) w) as [[?|?] ?].
Qed.

(** C2: an empty chunk written to the decoder stream is not turned into
    the loss signal.  It reaches the decode method as a Buffer of length 0:
    a block of 0 bytes is allocated for it, and the coder, if it is called,
    gets the address of that block with length 0; on the loss signal
    ([null]) the coder gets the null pointer instead and no block is
    allocated for the data. *)
Theorem empty_chunk_is_decoded_as_a_packet (dec : decoder_js.DecoderT) mode st chunk
    (w : World E) r w' :
  decoder_js.DecoderStream eng dec mode = Normal st →
  bytes chunk = [] →
  decoder_js._transform st chunk w = (r, w') →
  ∃ k p_pcm p_data rest,
    let lib := decoder_js._lib dec in
    let pcmSize :=
      decoder_js._frameSize dec * BYTES_PER_ELEMENT k * decoder_js._channels dec in
    let float := match k with Int16 => false | Float32 => true end in
    calls_since w w' = CMalloc lib pcmSize p_pcm :: CMalloc lib 0 p_data :: rest ∧
    (∀ inst fl dec_p pd dl pp status,
       CDecode inst fl dec_p pd dl pp status ∈ rest → pd = p_data ∧ dl = 0) ∧
    (∀ rn wn, decode_method eng k dec DNull w = (rn, wn) →
       ∃ p status rest',
         calls_since w wn =
           CMalloc lib pcmSize p ::
           CDecode lib float (decoder_js._dec_p dec) 0 0 p status :: rest').
Proof.
  intros Hst Hempty Hrun.
  apply DecoderStream_Normal in Hst as [k ->]. exists k.
  rewrite decoder_transform in Hrun. cbn [decoder_js.stream_decode] in Hrun.
  destruct (decode_method eng k dec (DBuffer chunk) w) as [r0 w0] eqn:Hdec.
  assert (w0 = w') as -> by (by destruct r0; simplify_eq).
  apply decode_outcome in Hdec as (cs & Hcs & _ & p_pcm & p_data & rest & -> & Hrest).
  rewrite Hempty in *. exists p_pcm, p_data, rest. cbv zeta.
  split; [by apply calls_since_app |]. split; [done |].
  intros rn wn Hnull.
  apply decode_outcome in Hnull as (cs' & Hcs' & _ & p & status & rest' & ->).
  exists p, status, rest'. by apply calls_since_app.
Qed.

Lemma coder_calls_app cs1 cs2 :
  coder_calls (cs1 ++ cs2) = (coder_calls cs1 + coder_calls cs2)%nat.
Proof. unfold coder_calls. by rewrite filter_app, length_app. Qed.

(** A stream whose [_transform] hands the result of one operation to the
    callback emits, for chunks on which the operation succeeds, the
    results that have a byte, in the order of the operations. *)
Section Stream.
Variable transform : Buffer → M (World E) Callback.
Variable op : Buffer → M (World E) Buffer.
Hypothesis transform_op : ∀ chunk w out w1,
  op chunk w = (Normal out, w1) →
  transform chunk w = (Normal (callback_result out), w1).
Hypothesis op_calls : ∀ chunk w out w1,
  op chunk w = (Normal out, w1) →
  ∃ cs, calls w1 = calls w ++ cs ∧ coder_calls cs = 1%nat.

Lemma write_all_in_sequence chunks : ∀ acc w outs w',
  in_sequence op chunks w = (Normal outs, w') →
  write_all transform chunks (mkAdapter Ready acc, w) =
    (Normal tt, (mkAdapter Ready (acc ++ nonempty outs), w')) ∧
  length outs = length chunks ∧
  ∃ cs, calls w' = calls w ++ cs ∧ coder_calls cs = length chunks.
Proof.
  induction chunks as [| chunk rest IH]; intros acc w outs w' Hseq.
  - cbn in Hseq. unfold ret in *. simplify_eq. cbn. rewrite app_nil_r.
    split; [done |]. split; [done |]. exists []. by rewrite app_nil_r.
  - cbn [in_sequence] in Hseq. unfold bind in Hseq.
    destruct (op chunk w) as [[out |] w1] eqn:Hop; [| done].
    destruct (in_sequence op rest w1) as [[outs' |] w2] eqn:Hrest; [| done].
    unfold ret in Hseq. simplify_eq.
    cbn [write_all]. unfold write, bind, get_local, try_catch, outer, set_local.
    cbn [state emitted]. rewrite (transform_op _ _ _ _ Hop).
    destruct (op_calls _ _ _ _ Hop) as (cs1 & Hcs1 & Hn1).
    unfold nonempty. rewrite filter_cons. unfold push. cbn [state emitted].
    destruct (Z.eqb_spec (len (bytes out)) 0) as [Hz | Hz].
    + destruct (IH acc _ _ _ Hrest) as (Hw & Hlen & cs2 & Hcs2 & Hn2).
      rewrite decide_False by (intros Hne; by apply Hne).
      fold (nonempty outs'). rewrite Hw. split; [done |].
      split; [cbn; by rewrite Hlen |].
      exists (cs1 ++ cs2). rewrite Hcs2, Hcs1, (assoc_L (++)).
      split; [done |]. rewrite coder_calls_app, Hn1, Hn2. done.
    + destruct (IH (acc ++ [out]) _ _ _ Hrest) as (Hw & Hlen & cs2 & Hcs2 & Hn2).
      rewrite decide_True by done.
      fold (nonempty outs'). rewrite Hw, <- (assoc_L (++)). split; [done |].
      split; [cbn; by rewrite Hlen |].
      exists (cs1 ++ cs2). rewrite Hcs2, Hcs1, (assoc_L (++)).
      split; [done |]. rewrite coder_calls_app, Hn1, Hn2. done.
Qed.
End Stream.

Lemma nonempty_all outs :
  Forall (λ out, len (bytes out) ≠ 0) outs → nonempty outs = outs.
Proof.
  unfold nonempty. induction 1 as [| out outs Hout _ IH]; [done |].
  rewrite filter_cons, decide_True by done. by rewrite IH.
Qed.

Lemma encoder_transform_op (es : encoder_js.EncoderStreamT) chunk (w : World E) out w1 :
  encoder_operation eng es chunk w = (Normal out, w1) →
  encoder_js._transform eng es chunk w = (Normal (callback_result out), w1).
Proof.
  unfold encoder_operation, encoder_js._transform, bind, lift_completion, try_catch, ret.
  destruct (new_TypedArray_view _ chunk) as [frame |]; [| done].
  destruct (encoder_js.encode eng _ (PTyped frame) _ w) as [[b |] w2]; [| done].
  by intros [= -> ->].
Qed.

Lemma encoder_operation_calls (es : encoder_js.EncoderStreamT) chunk (w : World E) out w1 :
  encoder_operation eng es chunk w = (Normal out, w1) →
  ∃ cs, calls w1 = calls w ++ cs ∧ coder_calls cs = 1%nat.
Proof.
  unfold encoder_operation, bind, lift_completion.
  destruct (new_TypedArray_view _ chunk) as [frame |]; [| done].
  intros Hrun. apply encode_outcome in Hrun as (cs & Hcs & Hone & _).
  exists cs. split; [done |]. by apply Hone.
Qed.

Lemma decoder_transform_op (ds : decoder_js.DecoderStreamT) chunk (w : World E) out w1 :
  decoder_operation ds chunk w = (Normal out, w1) →
  decoder_js._transform ds chunk w = (Normal (callback_result out), w1).
Proof.
  rewrite decoder_transform. unfold decoder_operation, bind, ret.
  destruct (decoder_js.stream_decode ds (DBuffer chunk) w) as [[array |] w2]; [| done].
  by intros [= -> ->].
Qed.

Lemma decoder_operation_calls (dec : decoder_js.DecoderT) k chunk (w : World E) out w1 :
  decoder_operation (decoder_js.mkDecoderStream (decode_method eng k dec)) chunk w =
    (Normal out, w1) →
  ∃ cs, calls w1 = calls w ++ cs ∧ coder_calls cs = 1%nat.
Proof.
  unfold decoder_operation, bind, ret. cbn [decoder_js.stream_decode].
  destruct (decode_method eng k dec (DBuffer chunk) w) as [[array |] w2] eqn:Hrun; [| done].
  intros [= <- <-]. apply decode_outcome in Hrun as (cs & Hcs & Hone & _).
  exists cs. split; [done |]. by apply Hone.
Qed.

(** C6: for a valid configuration, when the module made the mode (not 0)
    and answers the creation of the coder handle with 0, the constructor
    destroys the mode, reads the error code the module left at the address
    it was given, and throws an Error whose message is the text the module
    gives for that code; the allocation for the error code is freed on the
    way out.  These are all the calls the failed construction makes. *)
Theorem failed_handle_creation_releases opts (w : World E) :
  let x := extend defaults opts in
  let lib := chosen_lib x w in
  valid_config x →
  (∀ p_err l1 mode l2 l3 sp g,
     _malloc eng 4 (lib_at eng w lib) = (p_err, l1) →
     _celt_mode_create eng (x_rate x) (x_frameSize x) p_err l1 = (mode, l2) →
     mode ≠ 0 →
     _celt_encoder_create eng mode (x_channels x) p_err l2 = (0, l3) →
     let l4 := _celt_mode_destroy eng mode l3 in
     let err := HEAPU32_get (HEAPU8 l4) (js_shr p_err 2) in
     _celt_strerror eng err (if x_unsafe x then l4 else lib_at eng w instance) = (sp, g) →
     ∃ w',
       encoder_js.Encoder eng opts w = (Throw (Error (Pointer_stringify eng sp g)), w') ∧
       calls_since w w' =
         [CMalloc lib 4 p_err;
          CModeCreate lib (x_rate x) (x_frameSize x) p_err mode;
          CEncoderCreate lib mode (x_channels x) p_err 0;
          CModeDestroy lib mode;
          CStrerror instance err sp;
          CFree lib p_err]) ∧
  (∀ p_err l1 mode l2 l3 sp g,
     _malloc eng 4 (lib_at eng w lib) = (p_err, l1) →
     _celt_mode_create eng (x_rate x) (x_frameSize x) p_err l1 = (mode, l2) →
     mode ≠ 0 →
     _celt_decoder_create eng mode (x_channels x) p_err l2 = (0, l3) →
     let l4 := _celt_mode_destroy eng mode l3 in
     let err := HEAPU32_get (HEAPU8 l4) (js_shr p_err 2) in
     _celt_strerror eng err (if x_unsafe x then l4 else lib_at eng w instance) = (sp, g) →
     ∃ w',
       decoder_js.Decoder eng opts w = (Throw (Error (Pointer_stringify eng sp g)), w') ∧
       calls_since w w' =
         [CMalloc lib 4 p_err;
          CModeCreate lib (x_rate x) (x_frameSize x) p_err mode;
          CDecoderCreate lib mode (x_channels x) p_err 0;
          CModeDestroy lib mode;
          CStrerror instance err sp;
          CFree lib p_err]).
Proof.
  intros x lib (Hch & Hrate & Hrem).
  assert ((x_channels x <? 1) = false) as Hb1 by (apply Z.ltb_ge; lia).
  assert ((x_rate x <? 32000) || (x_rate x >? 96000) = false) as Hb2.
  { rewrite Z.gtb_ltb. apply orb_false_iff. split; apply Z.ltb_ge; lia. }
  assert (negb (Z.rem (x_rate x) 2 =? 0) = false) as Hb3
    by (apply negb_false_iff, Z.eqb_eq; done).
  split; intros p_err l1 mode l2 l3 sp g Hm Hmode Hne Hcreate l4 err Hstr;
    apply Z.eqb_neq in Hne; subst l4 err lib; unfold chosen_lib in *;
    unfold encoder_js.Encoder, encoder_js._error, decoder_js.Decoder, decoder_js._error;
    cbv zeta; fold x; rewrite Hb1, Hb2, Hb3;
    destruct (x_unsafe x); unfold_monad; cbv zeta;
    rewrite ?lib_at_world, Hm; constructor_step;
    rewrite Hmode; constructor_step; rewrite Hne; constructor_step;
    rewrite Hcreate; constructor_step;
    rewrite Hstr; constructor_step;
    (eexists; split; [reflexivity |]);
    erewrite calls_since_app by list_calls; done.
Qed.
End Proofs.

(** * Further properties of the wrappers *)

Ltac balance :=
  unfold nonnull; cbn [allocated freed omap]; simpl;
  rewrite ?filter_cons, ?filter_nil;
  repeat match goal with |- context [decide ?P] => destruct (decide P) end;
  (done || lia).

Section Resources.
Context {E : Type} (eng : Engine E).

(** X7: [encode] releases, last first, every block it allocated, on every way
    out: whatever the frame, the module's answers and the exception. *)
Theorem encode_releases_its_blocks (this : encoder_js.EncoderT) pcm arg1
    (w : World E) r w' :
  encoder_js.encode eng this pcm arg1 w = (r, w') →
  nonnull (freed (calls_since w w')) = reverse (nonnull (allocated (calls_since w w'))).
Proof.
  intros Hrun. unfold encoder_js.encode in Hrun.
  destruct pcm as [[[] samples] | n]; run_wrapper; to_Z; subst.
  all: erewrite calls_since_app by list_calls.
  all: balance.
Qed.

(** X12: The decode methods release, last first, every block they allocated, on
    every way out. *)
Theorem decode_releases_its_blocks (this : decoder_js.DecoderT) k data
    (w : World E) r w' :
  decode_method eng k this data w = (r, w') →
  nonnull (freed (calls_since w w')) = reverse (nonnull (allocated (calls_since w w'))).
Proof.
  intros Hrun.
  destruct k, data;
    unfold decode_method, decoder_js.decodeInt16, decoder_js.decodeFloat32,
      decoder_js._decode, new_TypedArray in Hrun; run_wrapper; to_Z; subst.
  all: erewrite calls_since_app by list_calls.
  all: balance.
Qed.

(** X3: Both constructors free the block of the error code whenever they
    allocated it, and allocate nothing else. *)
Theorem constructors_release_the_error_block opts (w : World E) re we rd wd :
  encoder_js.Encoder eng opts w = (re, we) →
  decoder_js.Decoder eng opts w = (rd, wd) →
  freed (calls_since w we) = allocated (calls_since w we) ∧
  (length (allocated (calls_since w we)) ≤ 1)%nat ∧
  freed (calls_since w wd) = allocated (calls_since w wd) ∧
  (length (allocated (calls_since w wd)) ≤ 1)%nat.
Proof.
  intros He Hd.
  apply Encoder_constructed in He. apply Decoder_constructed in Hd.
  inversion He; inversion Hd; subst; rewrite ?calls_since_refl;
    repeat match goal with H : calls _ = _ ++ _ |- _ =>
             rewrite (calls_since_app _ _ _ H); clear H end;
    cbn; repeat split; lia.
Qed.
End Resources.

Ltac each_call Hin tac :=
  repeat (apply elem_of_cons in Hin as [-> | Hin]; [tac |]);
  try (by apply elem_of_nil in Hin).

Section Sessions.
Context {E : Type} (eng : Engine E).

(** X2: For a valid configuration, when the module answers the creation
    of the mode with 0, the constructors read the error code the module left
    at the address it was given and throw an Error whose message is the text
    the module gives for that code, without asking for a coder: the calls
    are the allocation of the error code, the refused mode creation, the
    diagnostic and the release. *)
Theorem failed_mode_creation_makes_no_coder opts (w : World E) :
  let x := extend defaults opts in
  let lib := chosen_lib x w in
  valid_config x →
  ∀ p_err l1 l2 sp g,
    _malloc eng 4 (lib_at eng w lib) = (p_err, l1) →
    _celt_mode_create eng (x_rate x) (x_frameSize x) p_err l1 = (0, l2) →
    let err := HEAPU32_get (HEAPU8 l2) (js_shr p_err 2) in
    _celt_strerror eng err (if x_unsafe x then l2 else lib_at eng w instance) = (sp, g) →
    (∃ w',
       encoder_js.Encoder eng opts w = (Throw (Error (Pointer_stringify eng sp g)), w') ∧
       calls_since w w' =
         [CMalloc lib 4 p_err; CModeCreate lib (x_rate x) (x_frameSize x) p_err 0;
          CStrerror instance err sp; CFree lib p_err]) ∧
    (∃ w',
       decoder_js.Decoder eng opts w = (Throw (Error (Pointer_stringify eng sp g)), w') ∧
       calls_since w w' =
         [CMalloc lib 4 p_err; CModeCreate lib (x_rate x) (x_frameSize x) p_err 0;
          CStrerror instance err sp; CFree lib p_err]).
Proof.
  intros x lib (Hch & Hrate & Hrem) p_err l1 l2 sp g Hm Hmode err Hstr.
  assert ((x_channels x <? 1) = false) as Hb1 by (apply Z.ltb_ge; lia).
  assert ((x_rate x <? 32000) || (x_rate x >? 96000) = false) as Hb2.
  { rewrite Z.gtb_ltb. apply orb_false_iff. split; apply Z.ltb_ge; lia. }
  assert (negb (Z.rem (x_rate x) 2 =? 0) = false) as Hb3
    by (apply negb_false_iff, Z.eqb_eq; done).
  subst err lib; unfold chosen_lib in *.
  split;
    unfold encoder_js.Encoder, encoder_js._error, decoder_js.Decoder, decoder_js._error;
    cbv zeta; fold x; rewrite Hb1, Hb2, Hb3;
    destruct (x_unsafe x); unfold_monad; cbv zeta;
    rewrite ?lib_at_world, Hm; constructor_step;
    rewrite Hmode; constructor_step; rewrite Hstr; constructor_step;
    (eexists; split; [reflexivity |]);
    erewrite calls_since_app by list_calls; done.
Qed.

(** X1: An object exists only for a valid configuration: a construction
    that returns an Encoder, and likewise one that returns a Decoder, has at
    least one channel and an even rate in range, kept the options (with
    their defaults), made exactly one mode and one coder, both non-null and
    recorded in the object, and freed the error code. *)
Theorem construction_records_the_handles opts (w : World E) :
  let x := extend defaults opts in
  (∀ enc we,
     encoder_js.Encoder eng opts w = (Normal enc, we) →
     valid_config x ∧
     encoder_js._rate enc = x_rate x ∧ encoder_js._frameSize enc = x_frameSize x ∧
     encoder_js._channels enc = x_channels x ∧ encoder_js._unsafe enc = x_unsafe x ∧
     encoder_js._mode enc ≠ 0 ∧ encoder_js._enc_p enc ≠ 0 ∧
     ∃ p_err,
       calls_since w we =
         [CMalloc (encoder_js._lib enc) 4 p_err;
          CModeCreate (encoder_js._lib enc) (x_rate x) (x_frameSize x) p_err
            (encoder_js._mode enc);
          CEncoderCreate (encoder_js._lib enc) (encoder_js._mode enc) (x_channels x) p_err
            (encoder_js._enc_p enc);
          CFree (encoder_js._lib enc) p_err]) ∧
  (∀ dec wd,
     decoder_js.Decoder eng opts w = (Normal dec, wd) →
     valid_config x ∧
     decoder_js._rate dec = x_rate x ∧ decoder_js._frameSize dec = x_frameSize x ∧
     decoder_js._channels dec = x_channels x ∧ decoder_js._unsafe dec = x_unsafe x ∧
     decoder_js._mode dec ≠ 0 ∧ decoder_js._dec_p dec ≠ 0 ∧
     ∃ p_err,
       calls_since w wd =
         [CMalloc (decoder_js._lib dec) 4 p_err;
          CModeCreate (decoder_js._lib dec) (x_rate x) (x_frameSize x) p_err
            (decoder_js._mode dec);
          CDecoderCreate (decoder_js._lib dec) (decoder_js._mode dec) (x_channels x) p_err
            (decoder_js._dec_p dec);
          CFree (decoder_js._lib dec) p_err]).
Proof.
  intros x. split.
  - intros enc we He. apply Encoder_constructed in He. fold x in He.
    inversion He; subst.
    match goal with H : calls _ = _ ++ _ |- _ =>
      rewrite (calls_since_app _ _ _ H); clear H end.
    cbn. split; [done |]. repeat split; by eauto.
  - intros dec wd Hd. apply Decoder_constructed in Hd. fold x in Hd.
    inversion Hd; subst.
    match goal with H : calls _ = _ ++ _ |- _ =>
      rewrite (calls_since_app _ _ _ H); clear H end.
    cbn. split; [done |]. repeat split; by eauto.
Qed.

(** X5: [destroy] on an Encoder made with [unsafe: true], and likewise on
    such a Decoder, destroys on the shared instance the coder and then the
    mode, and these are the handles its construction got from the module. *)
Theorem destroy_releases_what_was_created opts (w : World E) :
  unsafe opts = Some true →
  (∀ enc we (w1 : World E),
     encoder_js.Encoder eng opts w = (Normal enc, we) →
     ∃ w2,
       encoder_js.destroy eng enc w1 = (Normal tt, w2) ∧
       calls_since w1 w2 =
         [CEncoderDestroy instance (encoder_js._enc_p enc);
          CModeDestroy instance (encoder_js._mode enc)] ∧
       ∃ rate fs ch p_err,
         CModeCreate instance rate fs p_err (encoder_js._mode enc) ∈ calls_since w we ∧
         CEncoderCreate instance (encoder_js._mode enc) ch p_err (encoder_js._enc_p enc)
           ∈ calls_since w we) ∧
  (∀ dec wd (w1 : World E),
     decoder_js.Decoder eng opts w = (Normal dec, wd) →
     ∃ w2,
       decoder_js.destroy eng dec w1 = (Normal tt, w2) ∧
       calls_since w1 w2 =
         [CDecoderDestroy instance (decoder_js._dec_p dec);
          CModeDestroy instance (decoder_js._mode dec)] ∧
       ∃ rate fs ch p_err,
         CModeCreate instance rate fs p_err (decoder_js._mode dec) ∈ calls_since w wd ∧
         CDecoderCreate instance (decoder_js._mode dec) ch p_err (decoder_js._dec_p dec)
           ∈ calls_since w wd).
Proof.
  intros Hunsafe. split.
  - intros enc we w1 He. apply Encoder_constructed in He.
    inversion He; subst.
    match goal with H : calls _ = _ ++ _ |- _ =>
      rewrite (calls_since_app _ _ _ H); clear H end.
    unfold encoder_js.destroy, bind, export_void, chosen_lib.
    cbn [encoder_js._unsafe encoder_js._lib encoder_js._enc_p encoder_js._mode
         x_unsafe extend].
    rewrite !Hunsafe. cbn [default from_option id].
    eexists; split; [reflexivity |]; split;
      [by erewrite calls_since_app by list_calls |].
    do 4 eexists.
    split; [apply list_elem_of_further, list_elem_of_here
           | do 2 apply list_elem_of_further; apply list_elem_of_here].
  - intros dec wd w1 Hd. apply Decoder_constructed in Hd.
    inversion Hd; subst.
    match goal with H : calls _ = _ ++ _ |- _ =>
      rewrite (calls_since_app _ _ _ H); clear H end.
    unfold decoder_js.destroy, bind, export_void, chosen_lib.
    cbn [decoder_js._unsafe decoder_js._lib decoder_js._dec_p decoder_js._mode
         x_unsafe extend].
    rewrite !Hunsafe. cbn [default from_option id].
    eexists; split; [reflexivity |]; split;
      [by erewrite calls_since_app by list_calls |].
    do 4 eexists.
    split; [apply list_elem_of_further, list_elem_of_here
           | do 2 apply list_elem_of_further; apply list_elem_of_here].
Qed.

(** Where a construction that returns leaves the factory's counter, and
    which instance the object got. *)
Lemma Encoder_instance opts (w : World E) enc w' :
  encoder_js.Encoder eng opts w = (Normal enc, w') →
  let x := extend defaults opts in
  encoder_js._lib enc = chosen_lib x w ∧
  created w' = (if x_unsafe x then created w else S (created w)).
Proof.
  intros Hrun. unfold encoder_js.Encoder, encoder_js._error in Hrun.
  cbv zeta in *. unfold chosen_lib. revert Hrun.
  generalize (extend defaults opts). intros x Hrun.
  run_wrapper; done.
Qed.

Lemma Decoder_instance opts (w : World E) dec w' :
  decoder_js.Decoder eng opts w = (Normal dec, w') →
  let x := extend defaults opts in
  decoder_js._lib dec = chosen_lib x w ∧
  created w' = (if x_unsafe x then created w else S (created w)).
Proof.
  intros Hrun. unfold decoder_js.Decoder, decoder_js._error in Hrun.
  cbv zeta in *. unfold chosen_lib. revert Hrun.
  generalize (extend defaults opts). intros x Hrun.
  run_wrapper; done.
Qed.

(** The factory's counter never goes down. *)
Lemma reached_created (w w' : World E) :
  reached eng w w' → (created w ≤ created w')%nat.
Proof.
  induction 1 as [| opts r w1 w2 _ IH Hrun | opts r w1 w2 _ IH Hrun
                  | this pcm arg1 r w1 w2 _ IH Hrun | this k data r w1 w2 _ IH Hrun
                  | this r w1 w2 _ IH Hrun | this r w1 w2 _ IH Hrun ]; [done | ..];
    assert (created w1 ≤ created w2)%nat; try lia.
  - unfold encoder_js.Encoder, encoder_js._error in Hrun. cbv zeta in Hrun.
    revert Hrun. generalize (extend defaults opts). intros x Hrun.
    run_wrapper; lia.
  - unfold decoder_js.Decoder, decoder_js._error in Hrun. cbv zeta in Hrun.
    revert Hrun. generalize (extend defaults opts). intros x Hrun.
    run_wrapper; lia.
  - unfold encoder_js.encode in Hrun.
    destruct pcm as [[[] samples] | n]; run_wrapper; lia.
  - destruct k, data;
      unfold decode_method, decoder_js.decodeInt16, decoder_js.decodeFloat32,
        decoder_js._decode, new_TypedArray in Hrun; run_wrapper; lia.
  - unfold encoder_js.destroy in Hrun. run_wrapper; lia.
  - unfold decoder_js.destroy in Hrun. run_wrapper; lia.
Qed.

Lemma made_own_instance lib (w w' : World E) :
  made_own eng lib w w' → lib = S (created w) ∧ created w' = S (created w).
Proof.
  intros [(opts & enc & Hsafe & Hrun & <-) | (opts & dec & Hsafe & Hrun & <-)].
  - apply Encoder_instance in Hrun as [-> ->]. unfold chosen_lib. simpl.
    by destruct (unsafe opts) as [[] |].
  - apply Decoder_instance in Hrun as [-> ->]. unfold chosen_lib. simpl.
    by destruct (unsafe opts) as [[] |].
Qed.


(** X13: A decode method and [encode] call only the object's own instance and,
    for a diagnostic, the shared one; they leave every other instance, the
    factory's counter and the global scope as they were. *)
Theorem operations_keep_to_their_instance (this : decoder_js.DecoderT) k data
    (enc : encoder_js.EncoderT) pcm arg1 (w : World E) rd wd re we :
  decode_method eng k this data w = (rd, wd) →
  encoder_js.encode eng enc pcm arg1 w = (re, we) →
  (created wd = created w ∧ globals wd = globals w ∧
   (∀ c, c ∈ calls_since w wd →
      instance_of c = decoder_js._lib this ∨ instance_of c = instance) ∧
   (∀ j, j ≠ decoder_js._lib this → j ≠ instance → lib_at eng wd j = lib_at eng w j)) ∧
  (created we = created w ∧ globals we = globals w ∧
   (∀ c, c ∈ calls_since w we →
      instance_of c = encoder_js._lib enc ∨ instance_of c = instance) ∧
   (∀ j, j ≠ encoder_js._lib enc → j ≠ instance → lib_at eng we j = lib_at eng w j)).
Proof.
  intros Hd He. split.
  - destruct k, data;
      unfold decode_method, decoder_js.decodeInt16, decoder_js.decodeFloat32,
        decoder_js._decode, new_TypedArray in Hd; run_wrapper.
    all: split; [done |]; split; [done |]; split.
    all: try (intros c Hin; erewrite calls_since_app in Hin by list_calls;
              each_call Hin ltac:(cbn; auto)).
    all: intros j Hj1 Hj2; unfold lib_at; cbn [instances];
         by rewrite ?lookup_insert_ne by done.
  - unfold encoder_js.encode in He.
    destruct pcm as [[[] samples] | n]; run_wrapper.
    all: split; [done |]; split; [done |]; split.
    all: try (intros c Hin; erewrite calls_since_app in Hin by list_calls;
              each_call Hin ltac:(cbn; auto)).
    all: intros j Hj1 Hj2; unfold lib_at; cbn [instances];
         by rewrite ?lookup_insert_ne by done.
Qed.
End Sessions.

Section Coding.
Context {E : Type} (eng : Engine E).


(** X6: What is not an Int16Array or a Float32Array is refused by a call
    of [encode] before anything is allocated or asked of the module:
    [undefined] and [null] with the engine's TypeError for reading their
    [length]; another value with the size Error when its [length] is not
    frameSize * channels (or it has none), and with the TypeError of the
    wrapper otherwise.  In each case the world is left as it was. *)
Theorem encode_refuses_other_values (this : encoder_js.EncoderT) pcm arg1 (w : World E) :
  (∀ a, pcm ≠ PObject (PTyped a)) →
  ∃ err,
    encoder_js.encode_value eng this pcm arg1 w = (Throw err, w) ∧
    calls_since w w = [] ∧
    match pcm with
    | PUndefined =>
        err = TypeError "Cannot read properties of undefined (reading 'length')"
    | PNull => err = TypeError "Cannot read properties of null (reading 'length')"
    | PObject other =>
        err =
          if decide (encoder_js.pcm_length other =
                       Some (encoder_js._frameSize this * encoder_js._channels this))
          then TypeError "pcm must be Int16Array or Float32Array"
          else Error "frames must be exactly of size frameSize * channels"
    end.
Proof.
  intros Hother. rewrite calls_since_refl.
  destruct pcm as [| | [a | length]]; [by eexists | by eexists | by destruct (Hother a) |].
  unfold encoder_js.encode_value, encoder_js.encode. cbn [encoder_js.pcm_length].
  case_decide as Hl.
  - rewrite bool_decide_eq_true_2 by done. by eexists.
  - rewrite bool_decide_eq_false_2 by done. by eexists.
Qed.

Lemma js_slice_bound h p n : 0 ≤ n → len (js_slice h p (p + n)) ≤ n.
Proof.
  unfold js_slice, rel_index, len. intros Hn.
  rewrite length_take, length_drop.
  destruct (Z.ltb_spec p 0), (Z.ltb_spec (p + n) 0); lia.
Qed.

(** X8: With a global [compressedSize = n], [encode] takes the packet size from
    it and not from its second argument: the coder is called on the
    object's handle with size [n] and a block of [n] bytes allocated for the
    packet; a packet that is returned is never longer than the length the
    coder reported. *)
Theorem encode_takes_the_size_from_the_global (this : encoder_js.EncoderT) pcm arg1
    (w : World E) n r w' :
  globals w !! "compressedSize" = Some n →
  encoder_js.encode eng this pcm arg1 w = (r, w') →
  (∀ inst fl enc_p p_pcm zero p_data size status,
     CEncode inst fl enc_p p_pcm zero p_data size status ∈ calls_since w w' →
     size = n ∧ zero = 0 ∧ enc_p = encoder_js._enc_p this ∧
     CMalloc (encoder_js._lib this) n p_data ∈ calls_since w w') ∧
  (∀ packet, r = Normal packet →
     ∃ inst fl enc_p p_pcm zero p_data size status,
       CEncode inst fl enc_p p_pcm zero p_data size status ∈ calls_since w w' ∧
       0 ≤ status ∧ len (bytes packet) ≤ status).
Proof.
  intros Hglobal Hrun. unfold encoder_js.encode in Hrun.
  destruct pcm as [[[] samples] | m]; run_wrapper; to_Z.
  all: erewrite calls_since_app by list_calls.
  all: split;
    [ intros inst fl enc_p p_pcm zero p_data size status Hin;
      find_call Hin; injection Hin; intros; subst;
      repeat split;
      repeat first [apply list_elem_of_here | apply list_elem_of_further]
    | intros packet Hp; simplify_eq ].
  all: do 8 eexists; split;
    [ repeat first [apply list_elem_of_here | apply list_elem_of_further] |].
  all: split; [done |]; cbn [bytes]; by apply js_slice_bound.
Qed.

Lemma len_bytes_of_elems k es :
  len (bytes_of_elems k es) = BYTES_PER_ELEMENT k * len es.
Proof.
  unfold bytes_of_elems, len.
  induction es as [| x es IH]; [simpl; lia |].
  rewrite fmap_cons. change (mjoin (?a :: ?l)) with (a ++ mjoin l).
  rewrite length_app. unfold le_bytes at 1. rewrite length_fmap, length_seq.
  cbn [length]. destruct k; cbn [BYTES_PER_ELEMENT] in *; lia.
Qed.

(** X14: [_transform] of the decoder stream never throws: what the decode
    method throws goes to the callback, what it returns is emitted with one
    byte per byte of the samples. *)
Theorem decoder_transform_never_throws (st : decoder_js.DecoderStreamT) chunk (w : World E) :
  ∃ cb w',
    decoder_js._transform st chunk w = (Normal cb, w') ∧
    (∀ err, cb = callback_err err ↔
            decoder_js.stream_decode st (DBuffer chunk) w = (Throw err, w')) ∧
    (∀ out, cb = callback_result out →
       ∃ array, decoder_js.stream_decode st (DBuffer chunk) w = (Normal array, w') ∧
                len (bytes out) = BYTES_PER_ELEMENT (kind array) * len (elems array)).
Proof.
  rewrite decoder_transform.
  destruct (decoder_js.stream_decode st (DBuffer chunk) w) as [[array | err] w'].
  - do 2 eexists. split; [reflexivity |]. split.
    + intros err. split; intros; simplify_eq.
    + intros out [= <-]. exists array. split; [done |]. cbn [bytes].
      apply len_bytes_of_elems.
  - do 2 eexists. split; [reflexivity |]. split.
    + intros e'. split; intros; by simplify_eq.
    + intros out [=].
Qed.

Lemma encode_first_call (this : encoder_js.EncoderT) k samples arg1 (w : World E) r w' :
  len samples = encoder_js._frameSize this * encoder_js._channels this →
  encoder_js.encode eng this (PTyped (mkTypedArray k samples)) arg1 w = (r, w') →
  ∃ p rest,
    calls_since w w' =
      CMalloc (encoder_js._lib this) (len samples * BYTES_PER_ELEMENT k) p :: rest.
Proof.
  intros Hlen Hrun. unfold encoder_js.encode in Hrun. cbn [encoder_js.pcm_length] in Hrun.
  rewrite bool_decide_eq_true_2 in Hrun by (cbn; by rewrite Hlen).
  destruct k; run_wrapper.
  all: erewrite calls_since_app by list_calls; by eauto.
Qed.

(** X16: [_transform] of the encoder stream throws, outside the callback, exactly
    for a chunk whose byte offset is not a multiple of the sample width.
    Otherwise it always answers through the callback.  The chunk counts as
    [byteLength / width] samples, rounded down: when that is not
    frameSize * channels the callback gets the size Error and nothing was
    allocated; when it is, trailing bytes or not, the frame is accepted and a
    block of that many samples is allocated for it. *)
Theorem encoder_transform_outcomes (es : encoder_js.EncoderStreamT) chunk (w : World E) :
  let this := encoder_js.stream_encoder es in
  let width := BYTES_PER_ELEMENT (encoder_js.stream_mode es) in
  let samples := len (bytes chunk) / width in
  let expected := encoder_js._frameSize this * encoder_js._channels this in
  (Z.rem (byteOffset chunk) width ≠ 0 →
     ∃ msg, encoder_js._transform eng es chunk w = (Throw (RangeError msg), w)) ∧
  (Z.rem (byteOffset chunk) width = 0 →
     ∃ cb w',
       encoder_js._transform eng es chunk w = (Normal cb, w') ∧
       (samples ≠ expected →
          cb = callback_err (Error "frames must be exactly of size frameSize * channels") ∧
          w' = w) ∧
       (samples = expected →
          ∃ p rest,
            calls_since w w' = CMalloc (encoder_js._lib this) (samples * width) p :: rest)).
Proof.
  intros this width samples expected.
  assert (0 < width) as Hw by (subst width; by destruct (encoder_js.stream_mode es)).
  assert (len (elems_of_bytes (encoder_js.stream_mode es) (Z.to_nat samples) (bytes chunk))
          = samples) as Hcount.
  { unfold len at 1. rewrite length_elems_of_bytes.
    subst samples. unfold len. apply Z2Nat.id, Z.div_pos; lia. }
  unfold encoder_js._transform, new_TypedArray_view, bind, lift_completion, try_catch, ret.
  fold width. fold samples. split; intros Halign.
  - rewrite (proj2 (Z.eqb_neq _ _) Halign). cbn [negb]. by eexists.
  - rewrite (proj2 (Z.eqb_eq _ _) Halign). cbn [negb]. fold this.
    destruct (encoder_js.encode eng this _ (encoder_js.stream_packetSize es) w)
      as [[packet | err] w'] eqn:Hrun.
    + do 2 eexists. split; [reflexivity |]. split.
      * intros Hne. exfalso. unfold encoder_js.encode in Hrun.
        cbn [encoder_js.pcm_length elems] in Hrun. rewrite Hcount in Hrun.
        rewrite bool_decide_eq_false_2 in Hrun
          by (intros [= Heq']; apply Hne; exact Heq').
        discriminate Hrun.
      * intros Heq. apply encode_first_call in Hrun as (p & rest & Hcalls).
        -- cbn [elems] in Hcalls. rewrite Hcount in Hcalls. by eauto.
        -- cbn [elems]. by rewrite Hcount.
    + do 2 eexists. split; [reflexivity |]. split.
      * intros Hne. unfold encoder_js.encode in Hrun.
        cbn [encoder_js.pcm_length elems] in Hrun. rewrite Hcount in Hrun.
        rewrite bool_decide_eq_false_2 in Hrun
          by (intros [= Heq']; apply Hne; exact Heq').
        cbn in Hrun. by injection Hrun as <- <-.
      * intros Heq. apply encode_first_call in Hrun as (p & rest & Hcalls).
        -- cbn [elems] in Hcalls. rewrite Hcount in Hcalls. by eauto.
        -- cbn [elems]. by rewrite Hcount.
Qed.
End Coding.

Section Marshalling.
Context {E : Type} (eng : Engine E).

Lemma js_slice_write_at h p bs :
  0 ≤ p → p + len bs ≤ len h →
  js_slice (write_at (Z.to_nat p) bs h) p (p + len bs) = bs.
Proof.
  unfold js_slice, rel_index, write_at, len. intros Hp Hfit.
  rewrite !length_app, length_take, length_drop.
  destruct (Z.ltb_spec p 0); [lia |].
  destruct (Z.ltb_spec (p + Z.of_nat (length bs)) 0); [lia |].
  rewrite drop_app_length' by (rewrite length_take; lia).
  rewrite take_app_length' by lia. done.
Qed.

Lemma new_TypedArray_exact k buffer count :
  0 ≤ count → len buffer = count * BYTES_PER_ELEMENT k →
  new_TypedArray k buffer =
    Normal (mkTypedArray k (elems_of_bytes k (Z.to_nat count) buffer)).
Proof.
  intros Hc Hlen. unfold new_TypedArray. rewrite Hlen.
  assert (BYTES_PER_ELEMENT k ≠ 0) as Hk by (by destruct k).
  rewrite Z.rem_mul by done. simpl. by rewrite Z.div_mul by done.
Qed.

Lemma le_bytes_elem k bs :
  bytes_ok bs → length bs = Z.to_nat (BYTES_PER_ELEMENT k) →
  le_bytes (Z.to_nat (BYTES_PER_ELEMENT k)) (elem_of_bytes k bs) = bs.
Proof.
  unfold bytes_ok. intros Hok Hlen.
  destruct k; cbn [BYTES_PER_ELEMENT] in Hlen.
  - destruct bs as [| b0 [| b1 [| ? ?]]]; try discriminate Hlen.
    apply Forall_cons in Hok as [H0 Hok]. apply Forall_cons in Hok as [H1 _].
    unfold elem_of_bytes, le_word, le_bytes. cbn [foldr fmap list_fmap seq BYTES_PER_ELEMENT].
    change (Z.to_nat 2) with 2%nat. cbn [seq].
    rewrite !fmap_cons, fmap_nil. cbn beta.
    change 255 with (Z.ones 8).
    rewrite !Z.land_ones, !Z.shiftr_div_pow2 by lia.
    change (2 ^ (8 * Z.of_nat 0)) with 1. change (2 ^ (8 * Z.of_nat 1)) with 256.
    change (2 ^ 8) with 256.
    destruct (Z.leb_spec 32768 (b0 + 256 * (b1 + 256 * 0)));
      repeat f_equal; Z.div_mod_to_equations; lia.
  - destruct bs as [| b0 [| b1 [| b2 [| b3 [| ? ?]]]]]; try discriminate Hlen.
    apply Forall_cons in Hok as [H0 Hok]. apply Forall_cons in Hok as [H1 Hok].
    apply Forall_cons in Hok as [H2 Hok]. apply Forall_cons in Hok as [H3 _].
    unfold elem_of_bytes, le_word, le_bytes. cbn [foldr BYTES_PER_ELEMENT].
    change (Z.to_nat 4) with 4%nat. cbn [seq].
    rewrite !fmap_cons, fmap_nil. cbn beta.
    change 255 with (Z.ones 8).
    rewrite !Z.land_ones, !Z.shiftr_div_pow2 by lia.
    change (2 ^ (8 * Z.of_nat 0)) with 1. change (2 ^ (8 * Z.of_nat 1)) with 256.
    change (2 ^ (8 * Z.of_nat 2)) with 65536. change (2 ^ (8 * Z.of_nat 3)) with 16777216.
    change (2 ^ 8) with 256.
    repeat f_equal; Z.div_mod_to_equations; lia.
Qed.

(** The bytes of a typed array made over a buffer are the bytes of the
    buffer. *)
Lemma bytes_of_elems_of_bytes k n bs :
  bytes_ok bs → length bs = (n * Z.to_nat (BYTES_PER_ELEMENT k))%nat →
  bytes_of_elems k (elems_of_bytes k n bs) = bs.
Proof.
  revert bs. induction n as [| n IH]; intros bs Hok Hlen.
  - destruct bs; [done | discriminate Hlen].
  - cbn [elems_of_bytes]. unfold bytes_of_elems. rewrite fmap_cons.
    change (mjoin (?a :: ?l)) with (a ++ mjoin l).
    fold (bytes_of_elems k (elems_of_bytes k n (drop (Z.to_nat (BYTES_PER_ELEMENT k)) bs))).
    rewrite IH.
    + rewrite le_bytes_elem; [apply take_drop | by apply Forall_take |].
      rewrite length_take. lia.
    + by apply Forall_drop.
    + rewrite length_drop. lia.
Qed.

(** A run of a decode method on a packet, when the blocks the allocator
    hands out lie in the module's memory and the coder reports success. *)
Lemma decode_packet_run (this : decoder_js.DecoderT) k buf (w : World E)
    p_pcm l1 p_data l2 status l4 :
  let lib := decoder_js._lib this in
  let pcmSize :=
    decoder_js._frameSize this * BYTES_PER_ELEMENT k * decoder_js._channels this in
  let float := match k with Int16 => false | Float32 => true end in
  let n := len (bytes buf) in
  let l3 := mkLib (write_at (Z.to_nat p_data) (bytes buf) (HEAPU8 l2)) (native l2) in
  _malloc eng pcmSize (lib_at eng w lib) = (p_pcm, l1) →
  _malloc eng n l1 = (p_data, l2) →
  in_heap l2 p_data n →
  _celt_decode eng float (decoder_js._dec_p this) p_data n p_pcm l3 = (status, l4) →
  0 ≤ status →
  in_heap l4 p_pcm pcmSize →
  ∃ w',
    decode_method eng k this (DBuffer buf) w =
      (Normal (mkTypedArray k
         (elems_of_bytes k
            (Z.to_nat (decoder_js._frameSize this * decoder_js._channels this))
            (js_slice (HEAPU8 l4) p_pcm (p_pcm + pcmSize)))), w') ∧
    calls_since w w' =
      [CMalloc lib pcmSize p_pcm; CMalloc lib n p_data;
       CDecode lib float (decoder_js._dec_p this) p_data n p_pcm status] ++
      (if p_data =? 0 then [] else [CFree lib p_data]) ++ [CFree lib p_pcm].
Proof.
  intros lib pcmSize float n l3 Hm1 Hm2 (Hd0 & _ & Hdfit) Hdec Hok (Hp & Hn & Hfit).
  assert (0 < BYTES_PER_ELEMENT k) as Hk by (by destruct k).
  assert (0 ≤ decoder_js._frameSize this * decoder_js._channels this) as Hcount
    by (subst pcmSize; nia).
  assert (new_TypedArray k (js_slice (HEAPU8 l4) p_pcm (p_pcm + pcmSize)) =
          Normal (mkTypedArray k
            (elems_of_bytes k
               (Z.to_nat (decoder_js._frameSize this * decoder_js._channels this))
               (js_slice (HEAPU8 l4) p_pcm (p_pcm + pcmSize))))) as Hframe.
  { apply new_TypedArray_exact; [done |].
    rewrite js_slice_length by done. subst pcmSize. lia. }
  assert ((p_data <? 0) || (len (HEAPU8 l2) `div` 1 <? p_data + n) = false) as Hset.
  { rewrite Z.div_1_r. apply orb_false_iff. split; apply Z.ltb_ge; lia. }
  subst lib pcmSize float n l3.
  destruct k; cbn [BYTES_PER_ELEMENT] in *;
    unfold decode_method, decoder_js.decodeInt16, decoder_js.decodeFloat32,
      decoder_js._decode;
    unfold_monad; cbv zeta; rewrite Hm1; cbn beta iota zeta delta [fst snd];
    rewrite lib_at_insert, Hm2; cbn beta iota zeta delta [fst snd];
    rewrite !lib_at_insert, Hset, Z.mul_1_l; cbn beta iota zeta delta [fst snd];
    rewrite !lib_at_insert; cbn [HEAPU8 native]; rewrite Hdec;
    cbn beta iota zeta delta [fst snd];
    (destruct (Z.ltb_spec status 0); [lia |]);
    rewrite ?lib_at_insert; destruct (p_data =? 0); simpl; rewrite ?lib_at_insert;
    rewrite Hframe;
    (eexists; split; [reflexivity |]);
    erewrite calls_since_app by list_calls; done.
Qed.

(** X10: A packet reaches the coder intact and comes back as a full frame: when
    the blocks of the allocator lie in the module's memory, the coder is
    called on memory that holds the packet's bytes at the data pointer; when
    it reports success the decode method returns a typed array of its kind
    with exactly frameSize * channels samples. *)
Theorem packet_is_decoded_to_a_full_frame (this : decoder_js.DecoderT) k buf (w : World E)
    p_pcm l1 p_data l2 status l4 :
  let lib := decoder_js._lib this in
  let pcmSize :=
    decoder_js._frameSize this * BYTES_PER_ELEMENT k * decoder_js._channels this in
  let float := match k with Int16 => false | Float32 => true end in
  let n := len (bytes buf) in
  let l3 := mkLib (write_at (Z.to_nat p_data) (bytes buf) (HEAPU8 l2)) (native l2) in
  _malloc eng pcmSize (lib_at eng w lib) = (p_pcm, l1) →
  _malloc eng n l1 = (p_data, l2) →
  in_heap l2 p_data n →
  _celt_decode eng float (decoder_js._dec_p this) p_data n p_pcm l3 = (status, l4) →
  0 ≤ status →
  in_heap l4 p_pcm pcmSize →
  js_slice (HEAPU8 l3) p_data (p_data + n) = bytes buf ∧
  ∃ frame w',
    decode_method eng k this (DBuffer buf) w = (Normal frame, w') ∧
    kind frame = k ∧
    len (elems frame) = decoder_js._frameSize this * decoder_js._channels this ∧
    coder_calls (calls_since w w') = 1%nat.
Proof.
  intros lib pcmSize float n l3 Hm1 Hm2 Hdata Hdec Hok Hpcm.
  split.
  { destruct Hdata as (? & ? & ?). subst l3 n. cbn [HEAPU8]. by apply js_slice_write_at. }
  destruct (decode_packet_run this k buf w p_pcm l1 p_data l2 status l4
              Hm1 Hm2 Hdata Hdec Hok Hpcm) as (w' & Hrun & Hcalls).
  destruct Hpcm as (? & ? & ?).
  assert (0 < BYTES_PER_ELEMENT k) as Hk by (by destruct k).
  do 2 eexists. split; [exact Hrun |]. split; [done |]. split.
  - cbn [elems]. unfold len. rewrite length_elems_of_bytes. subst pcmSize. nia.
  - rewrite Hcalls. by destruct (p_data =? 0).
Qed.

(** X15: The decoder stream emits the PCM block byte for byte: under the same
    conditions, and when the module's memory holds bytes, the chunk handed
    to the callback is the frameSize * channels * width bytes of the block
    the coder wrote, whatever the representation. *)
Theorem decoder_stream_emits_the_pcm_block (this : decoder_js.DecoderT) k chunk (w : World E)
    p_pcm l1 p_data l2 status l4 :
  let lib := decoder_js._lib this in
  let pcmSize :=
    decoder_js._frameSize this * BYTES_PER_ELEMENT k * decoder_js._channels this in
  let float := match k with Int16 => false | Float32 => true end in
  let n := len (bytes chunk) in
  let l3 := mkLib (write_at (Z.to_nat p_data) (bytes chunk) (HEAPU8 l2)) (native l2) in
  _malloc eng pcmSize (lib_at eng w lib) = (p_pcm, l1) →
  _malloc eng n l1 = (p_data, l2) →
  in_heap l2 p_data n →
  _celt_decode eng float (decoder_js._dec_p this) p_data n p_pcm l3 = (status, l4) →
  0 ≤ status →
  in_heap l4 p_pcm pcmSize →
  bytes_ok (HEAPU8 l4) →
  ∃ w',
    decoder_js._transform (decoder_js.mkDecoderStream (decode_method eng k this)) chunk w =
      (Normal (callback_result
                 (mkBuffer 0 (js_slice (HEAPU8 l4) p_pcm (p_pcm + pcmSize)))), w') ∧
    len (js_slice (HEAPU8 l4) p_pcm (p_pcm + pcmSize)) = pcmSize.
Proof.
  intros lib pcmSize float n l3 Hm1 Hm2 Hdata Hdec Hok Hpcm Hbytes.
  destruct (decode_packet_run this k chunk w p_pcm l1 p_data l2 status l4
              Hm1 Hm2 Hdata Hdec Hok Hpcm) as (w' & Hrun & _).
  destruct Hpcm as (? & ? & ?).
  assert (0 < BYTES_PER_ELEMENT k) as Hk by (by destruct k).
  assert (len (js_slice (HEAPU8 l4) p_pcm (p_pcm + pcmSize)) = pcmSize) as Hlen
    by (by apply js_slice_length).
  exists w'. split; [| done].
  rewrite decoder_transform. cbn [decoder_js.stream_decode]. rewrite Hrun.
  cbn [kind elems]. rewrite bytes_of_elems_of_bytes; [done | |].
  - unfold js_slice. by apply Forall_take, Forall_drop.
  - unfold len in Hlen. subst pcmSize. nia.
Qed.

Lemma js_shr_aligned p (i : Z) :
  0 ≤ p < 2147483648 → 0 ≤ i → Z.rem p (2 ^ i) = 0 → 2 ^ i * js_shr p i = p.
Proof.
  intros Hp Hi Hrem. unfold js_shr, ToInt32.
  rewrite Z.mod_small by lia.
  destruct (Z.leb_spec 2147483648 p); [lia |].
  rewrite Z.shiftr_div_pow2 by done.
  rewrite Z.rem_mod_nonneg in Hrem by lia.
  assert (0 < 2 ^ i) by (apply Z.pow_pos_nonneg; lia).
  rewrite (Z.div_mod p (2 ^ i)) at 2 by lia. lia.
Qed.

(** X9: With a global [compressedSize = size], a frame reaches the coder intact
    and its packet comes back whole: when the allocator's blocks lie in the
    module's memory and the PCM block is aligned to the sample width, the
    coder is called on memory that holds the samples' bytes at the PCM
    pointer, and when it reports a length that is not negative [encode]
    returns exactly that many bytes, read at the data pointer. *)
Theorem frame_is_encoded_to_a_packet (this : encoder_js.EncoderT) k samples arg1
    (w : World E) size p_pcm l1 p_data l3 status l4 :
  let lib := encoder_js._lib this in
  let width := BYTES_PER_ELEMENT k in
  let float := match k with Int16 => false | Float32 => true end in
  let l2 := mkLib (write_at (Z.to_nat p_pcm) (bytes_of_elems k samples) (HEAPU8 l1))
                  (native l1) in
  globals w !! "compressedSize" = Some size →
  len samples = encoder_js._frameSize this * encoder_js._channels this →
  _malloc eng (len samples * width) (lib_at eng w lib) = (p_pcm, l1) →
  p_pcm < 2147483648 → Z.rem p_pcm width = 0 →
  in_heap l1 p_pcm (len samples * width) →
  _malloc eng size l2 = (p_data, l3) →
  _celt_encode eng float (encoder_js._enc_p this) p_pcm 0 p_data size l3 = (status, l4) →
  0 ≤ status →
  in_heap l4 p_data status →
  js_slice (HEAPU8 l2) p_pcm (p_pcm + len samples * width) = bytes_of_elems k samples ∧
  ∃ w',
    encoder_js.encode eng this (PTyped (mkTypedArray k samples)) arg1 w =
      (Normal (mkBuffer 0 (js_slice (HEAPU8 l4) p_data (p_data + status))), w') ∧
    len (js_slice (HEAPU8 l4) p_data (p_data + status)) = status ∧
    calls_since w w' =
      [CMalloc lib (len samples * width) p_pcm; CMalloc lib size p_data;
       CEncode lib float (encoder_js._enc_p this) p_pcm 0 p_data size status;
       CFree lib p_data] ++
      (if p_pcm =? 0 then [] else [CFree lib p_pcm]).
Proof.
  intros lib width float l2 Hglobal Hlen Hm1 Hmax Halign (Hp & Hn & Hfit) Hm2 Henc Hok
    (Hd & _ & Hdfit).
  assert (len (bytes_of_elems k samples) = len samples * width) as Hbytes
    by (rewrite len_bytes_of_elems; subst width; lia).
  split.
  { subst l2. cbn [HEAPU8]. rewrite <- Hbytes. apply js_slice_write_at; lia. }
  assert (2 * js_shr p_pcm 1 = p_pcm ∨ width ≠ 2) as Hoff2.
  { destruct k; [left | by right]. apply (js_shr_aligned p_pcm 1); [lia | lia | done]. }
  assert (4 * js_shr p_pcm 2 = p_pcm ∨ width ≠ 4) as Hoff4.
  { destruct k; [by right | left]. apply (js_shr_aligned p_pcm 2); [lia | lia | done]. }
  subst lib width float l2.
  destruct k; cbn [BYTES_PER_ELEMENT] in *;
    [destruct Hoff2 as [Hoff | ?]; [| done] | destruct Hoff4 as [Hoff | ?]; [| done]].
  all: unfold encoder_js.encode; cbn [encoder_js.pcm_length elems];
    rewrite bool_decide_eq_true_2 by (by rewrite Hlen); cbn [negb];
    unfold_monad; cbv zeta; rewrite Hm1; cbn beta iota zeta delta [fst snd];
    rewrite !lib_at_insert.
  all: match goal with |- context [(?a <? 0) || (?b <? ?c)] =>
         assert ((a <? 0) || (b <? c) = false) as ->
           by (apply orb_false_iff; split; apply Z.ltb_ge;
               [lia | Z.div_mod_to_equations; lia]) end.
  all: rewrite Hoff; cbn beta iota zeta delta [fst snd globals];
    rewrite Hglobal; cbn beta iota zeta delta [fst snd];
    rewrite !lib_at_insert; cbn [HEAPU8 native]; rewrite Hm2;
    cbn beta iota zeta delta [fst snd globals]; rewrite Hglobal;
    cbn beta iota zeta delta [fst snd]; rewrite !lib_at_insert, Henc;
    cbn beta iota zeta delta [fst snd];
    (destruct (Z.ltb_spec status 0); [lia |]);
    rewrite ?lib_at_insert; destruct (p_pcm =? 0); simpl; rewrite ?lib_at_insert;
    (eexists; split; [reflexivity |]; split; [by apply js_slice_length |]);
    erewrite calls_since_app by list_calls; done.
Qed.
End Marshalling.

(** * Concrete runs *)

Example scenario_encoder :
  encoder_js.Encoder stub.engine scenario.options stub.world =
    (Normal scenario.encoder, scenario.encoder_world).
Proof. vm_compute. reflexivity. Qed.

Example scenario_decoder :
  decoder_js.Decoder stub.engine scenario.options stub.world =
    (Normal scenario.decoder, scenario.decoder_world).
Proof. vm_compute. reflexivity. Qed.

(** The scenario of the specification: 256 zero samples, packet size 960. *)
Example encode_silence :
  let run := encoder_js.encode stub.engine scenario.encoder (PTyped scenario.silence)
               (Some 960) scenario.encoder_world in
  fst run = Throw (ReferenceError "compressedSize is not defined") ∧
  calls_since scenario.encoder_world (snd run) = [CMalloc 1 512 112; CFree 1 112].
Proof. vm_compute. split; reflexivity. Qed.

Lemma encode_never_returns_a_packet_witness :
  let run := encoder_js.encode stub.engine scenario.encoder (PTyped scenario.silence)
               (Some 960) scenario.encoder_world in
  globals scenario.encoder_world !! "compressedSize" = None ∧
  is_Normal (fst run) = false ∧
  coder_calls (calls_since scenario.encoder_world (snd run)) = 0%nat.
Proof.
  intros run. split; [vm_compute; reflexivity |].
  destruct (encode_never_returns_a_packet stub.engine scenario.encoder
              (PTyped scenario.silence) (Some 960) scenario.encoder_world
              (fst run) (snd run)) as (H1 & H2 & _).
  - vm_compute. reflexivity.
  - vm_compute. reflexivity.
  - split; [exact H1 | exact H2].
Defined.

(** An empty chunk and the loss signal, on the decoder of the scenario. *)
Example empty_chunk_run :
  let stream := decoder_js.mkDecoderStream (decoder_js.decodeInt16 stub.engine scenario.decoder) in
  calls_since scenario.decoder_world
    (snd (decoder_js._transform stream scenario.empty_chunk scenario.decoder_world)) =
    [CMalloc 1 512 112; CMalloc 1 0 624; CDecode 1 false 48 624 0 112 0;
     CFree 1 624; CFree 1 112] ∧
  calls_since scenario.decoder_world
    (snd (decoder_js.decodeInt16 stub.engine scenario.decoder DNull scenario.decoder_world)) =
    [CMalloc 1 512 112; CDecode 1 false 48 0 0 112 0; CFree 1 112].
Proof. vm_compute. split; reflexivity. Qed.

Lemma empty_chunk_is_decoded_as_a_packet_witness :
  let stream := decoder_js.mkDecoderStream (decoder_js.decodeInt16 stub.engine scenario.decoder) in
  let run := decoder_js._transform stream scenario.empty_chunk scenario.decoder_world in
  ∃ k p_pcm p_data rest,
    calls_since scenario.decoder_world (snd run) =
      CMalloc 1 (256 * BYTES_PER_ELEMENT k * 1) p_pcm :: CMalloc 1 0 p_data :: rest ∧
    ∀ inst fl dec_p pd dl pp status,
      CDecode inst fl dec_p pd dl pp status ∈ rest → pd = p_data ∧ dl = 0.
Proof.
  intros stream run.
  destruct (empty_chunk_is_decoded_as_a_packet stub.engine scenario.decoder (Some "Int16")
              stream scenario.empty_chunk scenario.decoder_world (fst run) (snd run))
    as (k & p_pcm & p_data & rest & H1 & H2 & _).
  - reflexivity.
  - reflexivity.
  - vm_compute. reflexivity.
  - exists k, p_pcm, p_data, rest. split; [exact H1 | exact H2].
Defined.

(** C3, as stated, fails: with no channel and a rate of 42, which is
    outside 32000..96000, the error raised does not name "rate". *)
Lemma rate_diagnostic_counterexample :
  x_rate (extend defaults scenario.no_channel_bad_rate) < 32000 ∧
  ¬ ∃ err w',
      encoder_js.Encoder stub.engine scenario.no_channel_bad_rate stub.world =
        (Throw err, w') ∧
      references "rate" (message_of err) = true.
Proof.
  split; [vm_compute; reflexivity |].
  intros (err & w' & Hrun & Hname).
  vm_compute in Hrun. injection Hrun as <- _.
  vm_compute in Hname. discriminate Hname.
Qed.

Lemma config_errors_name_the_field_witness :
  (∃ m, references "channels" m = true ∧
        encoder_js.Encoder stub.engine scenario.no_channel_bad_rate stub.world =
          (Throw (Error m), stub.world) ∧
        decoder_js.Decoder stub.engine scenario.no_channel_bad_rate stub.world =
          (Throw (Error m), stub.world)) ∧
  (∃ m, references "rate" m = true ∧
        encoder_js.Encoder stub.engine (mkOpts (Some 48001) None None None None) stub.world =
          (Throw (Error m), stub.world) ∧
        decoder_js.Decoder stub.engine (mkOpts (Some 48001) None None None None) stub.world =
          (Throw (Error m), stub.world)) ∧
  reaches_engine stub.engine (extend defaults scenario.options) stub.world
    scenario.encoder_world (Normal scenario.encoder).
Proof.
  split; [| split].
  - apply (config_errors_name_the_field stub.engine scenario.no_channel_bad_rate stub.world).
    vm_compute. reflexivity.
  - apply (config_errors_name_the_field stub.engine
             (mkOpts (Some 48001) None None None None) stub.world).
    + vm_compute. discriminate.
    + right. right. reflexivity.
  - apply (config_errors_name_the_field stub.engine scenario.options stub.world).
    + vm_compute. discriminate.
    + split; vm_compute; discriminate.
    + reflexivity.
    + exact scenario_encoder.
Defined.

Lemma encode_refuses_wrong_length_witness :
  encoder_js.encode stub.engine scenario.encoder (PTyped (mkTypedArray Float32 []))
    (Some 960) scenario.encoder_world =
    (Throw (Error "frames must be exactly of size frameSize * channels"),
     scenario.encoder_world) ∧
  encoder_js.encode stub.engine scenario.encoder
    (PTyped (mkTypedArray Int16 (replicate 42 0))) (Some 960) scenario.encoder_world =
    (Throw (Error "frames must be exactly of size frameSize * channels"),
     scenario.encoder_world).
Proof.
  split.
  - apply (encode_refuses_wrong_length stub.engine scenario.encoder Float32 []
             (Some 960) scenario.encoder_world).
    vm_compute. discriminate.
  - apply (encode_refuses_wrong_length stub.engine scenario.encoder Int16 (replicate 42 0)
             (Some 960) scenario.encoder_world).
    vm_compute. discriminate.
Defined.

Lemma loss_signal_yields_a_full_frame_witness :
  ∃ frame w',
    decoder_js.decodeFloat32 stub.engine scenario.decoder DNull scenario.decoder_world =
      (Normal frame, w') ∧
    kind frame = Float32 ∧
    len (elems frame) = 256.
Proof.
  destruct (loss_signal_yields_a_full_frame stub.engine scenario.decoder Float32
              scenario.decoder_world 112
              (snd (stub.malloc 1024 (lib_at stub.engine scenario.decoder_world 1)))
              0
              (snd (stub.malloc 1024 (lib_at stub.engine scenario.decoder_world 1))))
    as (frame & w' & Hrun & Hkind & Hlen & _).
  - vm_compute. reflexivity.
  - vm_compute. reflexivity.
  - vm_compute. discriminate.
  - repeat split; vm_compute; discriminate.
  - exists frame, w'. split; [exact Hrun | split; [exact Hkind | exact Hlen]].
Defined.

(** Three channels: the stand-in makes the mode and refuses the coder. *)
Example three_channels_run :
  let run := encoder_js.Encoder stub.engine scenario.three_channels stub.world in
  fst run = Throw (Error "Invalid argument") ∧
  calls_since stub.world (snd run) =
    [CMalloc 1 4 8; CModeCreate 1 48000 256 8 16; CEncoderCreate 1 16 3 8 0;
     CModeDestroy 1 16; CStrerror 0 (Some 4294967295) 1008; CFree 1 8].
Proof. vm_compute. split; reflexivity. Qed.

Lemma failed_handle_creation_releases_witness :
  (∃ w',
     encoder_js.Encoder stub.engine scenario.three_channels stub.world =
       (Throw (Error "Invalid argument"), w') ∧
     calls_since stub.world w' =
       [CMalloc 1 4 8; CModeCreate 1 48000 256 8 16; CEncoderCreate 1 16 3 8 0;
        CModeDestroy 1 16; CStrerror instance (Some 4294967295) 1008; CFree 1 8]) ∧
  (∃ w',
     decoder_js.Decoder stub.engine scenario.three_channels stub.world =
       (Throw (Error "Invalid argument"), w') ∧
     calls_since stub.world w' =
       [CMalloc 1 4 8; CModeCreate 1 48000 256 8 16; CDecoderCreate 1 16 3 8 0;
        CModeDestroy 1 16; CStrerror instance (Some 4294967295) 1008; CFree 1 8]).
Proof.
  pose (l1 := snd (stub.malloc 4 (lib_at stub.engine stub.world 1))).
  pose (l2 := snd (stub.mode_create 48000 256 8 l1)).
  pose (l3 := snd (stub.coder_create 16 3 8 l2)).
  pose (g := snd (stub.strerror (Some 4294967295) (lib_at stub.engine stub.world 0))).
  destruct (failed_handle_creation_releases stub.engine scenario.three_channels stub.world)
    as [He Hd].
  - repeat split; vm_compute; (reflexivity || discriminate).
  - split.
    + apply (He 8 l1 16 l2 l3 1008 g); vm_compute; (reflexivity || discriminate).
    + apply (Hd 8 l1 16 l2 l3 1008 g); vm_compute; (reflexivity || discriminate).
Defined.



Lemma destroy_is_a_noop_in_safe_mode_witness :
  encoder_js.destroy stub.engine scenario.encoder scenario.encoder_world =
    (Normal tt, scenario.encoder_world) ∧
  decoder_js.destroy stub.engine scenario.decoder scenario.encoder_world =
    (Normal tt, scenario.encoder_world).
Proof.
  destruct (destroy_is_a_noop_in_safe_mode stub.engine scenario.options stub.world)
    as [He Hd].
  - vm_compute. discriminate.
  - split.
    + apply (He scenario.encoder scenario.encoder_world scenario_encoder
               scenario.encoder_world).
    + apply (Hd scenario.decoder scenario.decoder_world scenario_decoder
               scenario.encoder_world).
Defined.

Lemma decode_refuses_non_buffer_witness :
  ∃ p_pcm w',
    decoder_js.decodeInt16 stub.engine scenario.decoder (DNumber 3) scenario.decoder_world =
      (Throw (TypeError "data must be Buffer or null"), w') ∧
    calls_since scenario.decoder_world w' = [CMalloc 1 512 p_pcm; CFree 1 p_pcm].
Proof.
  destruct (decode_refuses_non_buffer stub.engine scenario.decoder Int16 (DNumber 3)
              scenario.decoder_world) as (p_pcm & w' & Hrun & Hcalls & _).
  - discriminate.
  - intros buf. discriminate.
  - exists p_pcm, w'. split; [exact Hrun | exact Hcalls].
Defined.

(** A frame size of 0 goes to the module as it is, which refuses it. *)
Lemma frameSize_is_not_validated_witness :
  let enc := encoder_js.Encoder stub.engine scenario.no_frame stub.world in
  let dec := decoder_js.Decoder stub.engine scenario.no_frame stub.world in
  (∃ lib p_err mode rest,
     calls_since stub.world (snd enc) =
       CMalloc lib 4 p_err :: CModeCreate lib 48000 0 p_err mode :: rest) ∧
  (∃ lib p_err mode rest,
     calls_since stub.world (snd dec) =
       CMalloc lib 4 p_err :: CModeCreate lib 48000 0 p_err mode :: rest).
Proof.
  intros enc dec.
  destruct (frameSize_is_not_validated stub.engine scenario.no_frame 0 stub.world
              (fst enc) (snd enc) (fst dec) (snd dec)) as (He & _ & Hd & _).
  - reflexivity.
  - vm_compute. discriminate.
  - split; vm_compute; discriminate.
  - reflexivity.
  - vm_compute. reflexivity.
  - vm_compute. reflexivity.
  - split; [exact He | exact Hd].
Defined.

(** * Concrete runs of the further properties *)

Example more_sessions :
  decoder_js.Decoder stub.engine scenario.options scenario.encoder_world =
    (Normal more.second_decoder, more.second_world) ∧
  encoder_js.Encoder stub.engine more.unsafe_options stub.world =
    (Normal more.unsafe_encoder, more.unsafe_encoder_world) ∧
  decoder_js.Decoder stub.engine more.unsafe_options stub.world =
    (Normal more.unsafe_decoder, more.unsafe_decoder_world).
Proof. vm_compute. repeat split; reflexivity. Qed.

Lemma encode_releases_its_blocks_witness :
  let run := encoder_js.encode stub.engine scenario.encoder (PTyped scenario.silence)
               (Some 960) scenario.encoder_world_with_global in
  nonnull (freed (calls_since scenario.encoder_world_with_global (snd run))) = [624; 112] ∧
  nonnull (allocated (calls_since scenario.encoder_world_with_global (snd run))) = [112; 624].
Proof.
  intros run.
  pose proof (encode_releases_its_blocks stub.engine scenario.encoder (PTyped scenario.silence)
                (Some 960) scenario.encoder_world_with_global (fst run) (snd run)) as H.
  assert (nonnull (allocated (calls_since scenario.encoder_world_with_global (snd run)))
          = [112; 624]) as Ha by (vm_compute; reflexivity).
  rewrite Ha in H. split; [| exact Ha].
  apply H. vm_compute. reflexivity.
Defined.

Lemma decode_releases_its_blocks_witness :
  let run := decoder_js.decodeInt16 refusing.engine scenario.decoder (DBuffer more.packet)
               scenario.decoder_world in
  nonnull (freed (calls_since scenario.decoder_world (snd run))) = [624; 112] ∧
  nonnull (allocated (calls_since scenario.decoder_world (snd run))) = [112; 624].
Proof.
  intros run.
  pose proof (decode_releases_its_blocks refusing.engine scenario.decoder Int16
                (DBuffer more.packet) scenario.decoder_world (fst run) (snd run)) as H.
  assert (nonnull (allocated (calls_since scenario.decoder_world (snd run)))
          = [112; 624]) as Ha by (vm_compute; reflexivity).
  rewrite Ha in H. split; [| exact Ha].
  apply H. vm_compute. reflexivity.
Defined.

Lemma constructors_release_the_error_block_witness :
  let enc := encoder_js.Encoder stub.engine scenario.three_channels stub.world in
  let dec := decoder_js.Decoder stub.engine scenario.no_frame stub.world in
  freed (calls_since stub.world (snd enc)) = allocated (calls_since stub.world (snd enc)) ∧
  freed (calls_since stub.world (snd dec)) = allocated (calls_since stub.world (snd dec)).
Proof.
  intros enc dec. split.
  - apply (constructors_release_the_error_block stub.engine scenario.three_channels stub.world
             (fst enc) (snd enc)
             (fst (decoder_js.Decoder stub.engine scenario.three_channels stub.world))
             (snd (decoder_js.Decoder stub.engine scenario.three_channels stub.world)));
      vm_compute; reflexivity.
  - apply (constructors_release_the_error_block stub.engine scenario.no_frame stub.world
             (fst (encoder_js.Encoder stub.engine scenario.no_frame stub.world))
             (snd (encoder_js.Encoder stub.engine scenario.no_frame stub.world))
             (fst dec) (snd dec));
      vm_compute; reflexivity.
Defined.

Lemma failed_mode_creation_makes_no_coder_witness :
  (∃ w',
     encoder_js.Encoder stub.engine scenario.no_frame stub.world =
       (Throw (Error "Invalid argument"), w') ∧
     calls_since stub.world w' =
       [CMalloc 1 4 8; CModeCreate 1 48000 0 8 0;
        CStrerror instance (Some 4294967295) 1008; CFree 1 8]) ∧
  (∃ w',
     decoder_js.Decoder stub.engine scenario.no_frame stub.world =
       (Throw (Error "Invalid argument"), w') ∧
     calls_since stub.world w' =
       [CMalloc 1 4 8; CModeCreate 1 48000 0 8 0;
        CStrerror instance (Some 4294967295) 1008; CFree 1 8]).
Proof.
  pose (l1 := snd (stub.malloc 4 (lib_at stub.engine stub.world 1))).
  pose (l2 := snd (stub.mode_create 48000 0 8 l1)).
  pose (g := snd (stub.strerror (Some 4294967295) (lib_at stub.engine stub.world 0))).
  apply (failed_mode_creation_makes_no_coder stub.engine scenario.no_frame stub.world)
    with (p_err := 8) (l1 := l1) (l2 := l2) (sp := 1008) (g := g).
  - repeat split; vm_compute; (reflexivity || discriminate).
  - vm_compute. reflexivity.
  - vm_compute. reflexivity.
  - vm_compute. reflexivity.
Defined.

Lemma construction_records_the_handles_witness :
  valid_config (extend defaults scenario.options) ∧
  encoder_js._mode scenario.encoder ≠ 0 ∧ encoder_js._enc_p scenario.encoder ≠ 0 ∧
  decoder_js._mode scenario.decoder ≠ 0 ∧ decoder_js._dec_p scenario.decoder ≠ 0.
Proof.
  destruct (construction_records_the_handles stub.engine scenario.options stub.world)
    as [He Hd].
  destruct (He scenario.encoder scenario.encoder_world scenario_encoder)
    as (Hv & _ & _ & _ & _ & Hm & Hh & _).
  destruct (Hd scenario.decoder scenario.decoder_world scenario_decoder)
    as (_ & _ & _ & _ & _ & Hm' & Hh' & _).
  split; [exact Hv |]. split; [exact Hm |]. split; [exact Hh |].
  split; [exact Hm' | exact Hh'].
Defined.

Lemma destroy_releases_what_was_created_witness :
  (∃ w2,
     encoder_js.destroy stub.engine more.unsafe_encoder more.unsafe_encoder_world =
       (Normal tt, w2) ∧
     calls_since more.unsafe_encoder_world w2 = [CEncoderDestroy 0 48; CModeDestroy 0 16]) ∧
  (∃ w2,
     decoder_js.destroy stub.engine more.unsafe_decoder more.unsafe_decoder_world =
       (Normal tt, w2) ∧
     calls_since more.unsafe_decoder_world w2 = [CDecoderDestroy 0 48; CModeDestroy 0 16]).
Proof.
  destruct (destroy_releases_what_was_created stub.engine more.unsafe_options stub.world)
    as [He Hd]; [reflexivity |].
  destruct (He more.unsafe_encoder more.unsafe_encoder_world more.unsafe_encoder_world)
    as (w2 & Hrun & Hcalls & _); [apply more_sessions |].
  destruct (Hd more.unsafe_decoder more.unsafe_decoder_world more.unsafe_decoder_world)
    as (w3 & Hrun' & Hcalls' & _); [apply more_sessions |].
  split; [exists w2 | exists w3]; (split; [assumption | assumption]).
Defined.


Lemma operations_keep_to_their_instance_witness :
  let dec := decoder_js.decodeInt16 refusing.engine scenario.decoder (DBuffer more.packet)
               scenario.encoder_world_with_global in
  let enc := encoder_js.encode refusing.engine scenario.encoder (PTyped scenario.silence)
               (Some 960) scenario.encoder_world_with_global in
  lib_at refusing.engine (snd dec) 2 = lib_at refusing.engine scenario.encoder_world_with_global 2 ∧
  lib_at refusing.engine (snd enc) 2 = lib_at refusing.engine scenario.encoder_world_with_global 2.
Proof.
  intros dec enc.
  destruct (operations_keep_to_their_instance refusing.engine scenario.decoder Int16
              (DBuffer more.packet) scenario.encoder (PTyped scenario.silence) (Some 960)
              scenario.encoder_world_with_global (fst dec) (snd dec) (fst enc) (snd enc))
    as [(_ & _ & _ & Hd) (_ & _ & _ & He)].
  - vm_compute. reflexivity.
  - vm_compute. reflexivity.
  - split; [apply Hd | apply He]; discriminate.
Defined.


Lemma encode_refuses_other_values_witness :
  encoder_js.encode_value stub.engine scenario.encoder PUndefined (Some 960)
    scenario.encoder_world =
    (Throw (TypeError "Cannot read properties of undefined (reading 'length')"),
     scenario.encoder_world) ∧
  encoder_js.encode_value stub.engine scenario.encoder (PObject (POther None)) (Some 960)
    scenario.encoder_world =
    (Throw (Error "frames must be exactly of size frameSize * channels"),
     scenario.encoder_world) ∧
  encoder_js.encode_value stub.engine scenario.encoder (PObject (POther (Some 256)))
    (Some 960) scenario.encoder_world =
    (Throw (TypeError "pcm must be Int16Array or Float32Array"), scenario.encoder_world).
Proof.
  split; [| split].
  - destruct (encode_refuses_other_values stub.engine scenario.encoder PUndefined (Some 960)
                scenario.encoder_world) as (err & Hrun & _ & Herr); [discriminate |].
    rewrite Hrun, Herr. reflexivity.
  - destruct (encode_refuses_other_values stub.engine scenario.encoder
                (PObject (POther None)) (Some 960) scenario.encoder_world)
      as (err & Hrun & _ & Herr); [discriminate |].
    rewrite Hrun, Herr. reflexivity.
  - destruct (encode_refuses_other_values stub.engine scenario.encoder
                (PObject (POther (Some 256))) (Some 960) scenario.encoder_world)
      as (err & Hrun & _ & Herr); [discriminate |].
    rewrite Hrun, Herr. reflexivity.
Defined.

Lemma encode_takes_the_size_from_the_global_witness :
  let run := encoder_js.encode stub.engine scenario.encoder (PTyped scenario.silence)
               (Some 10) scenario.encoder_world_with_global in
  CMalloc 1 960 624 ∈ calls_since scenario.encoder_world_with_global (snd run) ∧
  ∃ inst fl enc_p p_pcm zero p_data size status,
    CEncode inst fl enc_p p_pcm zero p_data size status
      ∈ calls_since scenario.encoder_world_with_global (snd run) ∧
    0 ≤ status ∧ len [1; 2; 3; 4] ≤ status.
Proof.
  intros run.
  destruct (encode_takes_the_size_from_the_global stub.engine scenario.encoder
              (PTyped scenario.silence) (Some 10) scenario.encoder_world_with_global 960
              (fst run) (snd run)) as [Hsize Hpacket].
  - vm_compute. reflexivity.
  - vm_compute. reflexivity.
  - split.
    + apply (Hsize 1%nat false 48 112 0 624 960 4).
      vm_compute. do 2 apply list_elem_of_further. apply list_elem_of_here.
    + apply (Hpacket (mkBuffer 0 [1; 2; 3; 4])). vm_compute. reflexivity.
Defined.

Lemma encoder_transform_outcomes_witness :
  let es := encoder_js.mkEncoderStream scenario.encoder Int16 (Some 960) in
  (∃ msg, encoder_js._transform stub.engine es more.odd_chunk scenario.encoder_world =
            (Throw (RangeError msg), scenario.encoder_world)) ∧
  (∃ cb w',
     encoder_js._transform stub.engine es scenario.empty_chunk scenario.encoder_world =
       (Normal cb, w') ∧
     cb = callback_err (Error "frames must be exactly of size frameSize * channels")) ∧
  (∃ cb w' p rest,
     encoder_js._transform stub.engine es more.long_chunk scenario.encoder_world =
       (Normal cb, w') ∧
     calls_since scenario.encoder_world w' = CMalloc 1 512 p :: rest).
Proof.
  intros es. split; [| split].
  - apply (encoder_transform_outcomes stub.engine es more.odd_chunk scenario.encoder_world).
    vm_compute. discriminate.
  - destruct (encoder_transform_outcomes stub.engine es scenario.empty_chunk
                scenario.encoder_world) as [_ H].
    destruct H as (cb & w' & Hrun & Hsize & _); [vm_compute; reflexivity |].
    exists cb, w'. split; [exact Hrun |]. apply Hsize. vm_compute. discriminate.
  - destruct (encoder_transform_outcomes stub.engine es more.long_chunk
                scenario.encoder_world) as [_ H].
    destruct H as (cb & w' & Hrun & _ & Hframe); [vm_compute; reflexivity |].
    destruct Hframe as (p & rest & Hcalls); [vm_compute; reflexivity |].
    exists cb, w', p, rest. split; [exact Hrun | exact Hcalls].
Defined.

Lemma packet_is_decoded_to_a_full_frame_witness :
  ∃ frame w',
    decoder_js.decodeInt16 stub.engine scenario.decoder (DBuffer more.packet)
      scenario.decoder_world = (Normal frame, w') ∧
    kind frame = Int16 ∧ len (elems frame) = 256.
Proof.
  pose (l1 := snd (stub.malloc 512 (lib_at stub.engine scenario.decoder_world 1))).
  pose (l2 := snd (stub.malloc 4 l1)).
  destruct (packet_is_decoded_to_a_full_frame stub.engine scenario.decoder Int16 more.packet
              scenario.decoder_world 112 l1 624 l2 0
              (mkLib (write_at (Z.to_nat 624) (bytes more.packet) (HEAPU8 l2)) (native l2)))
    as (_ & frame & w' & Hrun & Hkind & Hlen & _).
  - vm_compute. reflexivity.
  - vm_compute. reflexivity.
  - repeat split; vm_compute; discriminate.
  - vm_compute. reflexivity.
  - vm_compute. discriminate.
  - repeat split; vm_compute; discriminate.
  - exists frame, w'. split; [exact Hrun | split; [exact Hkind | exact Hlen]].
Defined.

Lemma decoder_stream_emits_the_pcm_block_witness :
  ∃ w',
    decoder_js._transform
      (decoder_js.mkDecoderStream (decode_method stub.engine Float32 scenario.decoder))
      more.packet scenario.decoder_world =
      (Normal (callback_result (mkBuffer 0 (replicate 1024 0))), w').
Proof.
  pose (l1 := snd (stub.malloc 1024 (lib_at stub.engine scenario.decoder_world 1))).
  pose (l2 := snd (stub.malloc 4 l1)).
  destruct (decoder_stream_emits_the_pcm_block stub.engine scenario.decoder Float32
              more.packet scenario.decoder_world 112 l1 1136 l2 0
              (mkLib (write_at (Z.to_nat 1136) (bytes more.packet) (HEAPU8 l2)) (native l2)))
    as (w' & Hrun & _).
  - vm_compute. reflexivity.
  - vm_compute. reflexivity.
  - repeat split; vm_compute; discriminate.
  - vm_compute. reflexivity.
  - vm_compute. discriminate.
  - repeat split; vm_compute; discriminate.
  - apply (bool_decide_unpack _). vm_compute. exact I.
  - exists w'. exact Hrun.
Defined.

Lemma frame_is_encoded_to_a_packet_witness :
  ∃ w',
    encoder_js.encode stub.engine scenario.encoder (PTyped scenario.silence) None
      scenario.encoder_world_with_global =
      (Normal (mkBuffer 0 [1; 2; 3; 4]), w').
Proof.
  pose (l1 := snd (stub.malloc 512
                     (lib_at stub.engine scenario.encoder_world_with_global 1))).
  pose (l2 := mkLib (write_at (Z.to_nat 112) (bytes_of_elems Int16 (elems scenario.silence))
                       (HEAPU8 l1)) (native l1)).
  pose (l3 := snd (stub.malloc 960 l2)).
  destruct (frame_is_encoded_to_a_packet stub.engine scenario.encoder Int16
              (elems scenario.silence) None scenario.encoder_world_with_global
              960 112 l1 624 l3 4
              (snd (stub.encode false 48 112 0 624 960 l3)))
    as (_ & w' & Hrun & _).
  - vm_compute. reflexivity.
  - vm_compute. reflexivity.
  - vm_compute. reflexivity.
  - vm_compute. reflexivity.
  - vm_compute. reflexivity.
  - repeat split; vm_compute; discriminate.
  - vm_compute. reflexivity.
  - vm_compute. reflexivity.
  - vm_compute. discriminate.
  - repeat split; vm_compute; discriminate.
  - exists w'. exact Hrun.
Defined.
